(** * plot_z25.py: the Z2.5 depth-map pipeline

    A shallow embedding of [src/plot_z25.py] (functions [parse_arguments]
    and [main]) and the properties of its pipeline: depth selection,
    reshaping and masking, the vertical flip, the colour-scale policies,
    the metadata fallback, the size check, argument handling and the
    city filter.

    The script is straight-line Python with early [return]s, exceptions,
    logging and calls into numpy, matplotlib and cartopy.  It is modelled
    as a computation in a writer/error monad: the trace records every log
    record and every call handed to the plotting libraries, in program
    order, and the outcome says whether the code ran to its end, hit a
    [return], raised, or left through [sys.exit]. *)

From Stdlib Require Import ZArith QArith String.
From stdpp Require Import base option list gmap strings.

Close Scope Q_scope.
Open Scope Z_scope.

(** ** Numbers

    Python [float]s and numpy [float64]s are kept behind an interface: the
    script compares them, adds a label offset, takes minima and maxima and
    converts between [int], [float] and [str].  Nothing below depends on
    how a float is rounded, so every result holds for whatever carrier
    implements the operations. *)

Class FloatOps (F : Type) := {
  feqb : F → F → bool;                (* x == y *)
  fltb : F → F → bool;                (* x < y *)
  fleb : F → F → bool;                (* x <= y *)
  fadd : F → F → F;                   (* x + y *)
  fmaximum : F → F → F;               (* the reduction step of ndarray.max *)
  fminimum : F → F → F;               (* the reduction step of ndarray.min *)
  fzero : F;                          (* 0.0 *)
  fone : F;                           (* 1.0, also the int 1 seen by numpy *)
  fminus_one : F;                     (* -1.0 *)
  ftenth : F;                         (* 0.1 *)
  float_of_int : Z → option F;        (* float(n); None: OverflowError *)
  int_of_float : F → option Z;        (* int(x); None: nan or an infinity *)
  float_of_string : string → option F (* float(s); None: ValueError *)
}.


(** The order facts the properties about ascending lists and maxima use.
    They are stated on the boolean comparisons, with [fleb x x = true]
    standing for "x is a number" (it fails exactly for a NaN), so IEEE
    doubles satisfy them as well as exact arithmetic does. *)
Class FloatLaws (F : Type) `{FloatOps F} : Prop := {
  fltb_trans : ∀ x y z : F, fltb x y = true → fltb y z = true → fltb x z = true;
  fleb_trans : ∀ x y z : F, fleb x y = true → fleb y z = true → fleb x z = true;
  fleb_not_fltb : ∀ x y : F, fleb y x = true → fltb x y = false;
  fltb_irrefl : ∀ x : F, fltb x x = false;
  fmaximum_cases : ∀ x y : F, fmaximum x y = x ∨ fmaximum x y = y;
  fmaximum_ge_l : ∀ x y : F,
    fleb x x = true → fleb y y = true → fleb x (fmaximum x y) = true;
  fmaximum_ge_r : ∀ x y : F,
    fleb x x = true → fleb y y = true → fleb y (fmaximum x y) = true
}.

(** ** Values read from the input files *)

Section Pipeline.
Context {F : Type} `{!FloatOps F}.

(** A JSON number as [json.load] returns it: an [int] or a [float]. *)
Inductive jnum :=
  | JInt (n : Z)
  | JFloat (x : F).

(** The values a metadata file holds: numbers and flat lists of numbers. *)
Inductive jvalue :=
  | JNum (n : jnum)
  | JList (l : list jnum).

(** What [np.array(v, dtype=float)] builds from such a value: a
    zero-dimensional array from a number, a one-dimensional one from a
    list. *)
Inductive ndarray :=
  | Arr0 (x : F)
  | Arr1 (l : list F).

(** The depth grid after [np.ma.masked_equal]: the cells and, cell for
    cell, whether each is masked. *)
Record masked_array := MaskedArray {
  ma_data : list (list F);
  ma_mask : list (list bool)
}.

(** A record of the Natural Earth populated-places table: the attributes
    the loop reads and the point geometry.  [POP_MAX] is [None] when
    [attributes.get] finds nothing. *)
Record place := Place {
  NAME : string;
  POP_MAX : option Z;
  geometry_x : F;
  geometry_y : F
}.

(** ** Effects *)

Inductive level := INFO | WARNING | ERROR.

(** The log messages of [main], one constructor per format string, with
    the values the string interpolates. *)
Inductive message :=
  | MsgNoMaxDepth            (* 'max_depth' not found in metadata. Using datamax mode instead. *)
  | MsgMetadata (nx ny : Z) (lat_min lat_max : F)
  | MsgSizeMismatch (expected : Z) (got : nat)
  | MsgFlipped               (* Flipped data vertically ... *)
  | MsgNoMetaMax             (* Metadata mode selected but no 'max_depth' found. Exiting. *)
  | MsgAllMissing            (* All data are missing; setting max to 0 *)
  | MsgNeedUserMax           (* User max scale mode requires --user_max value *)
  | MsgInvalidMode           (* Invalid scale_mode. Exiting. *)
  | MsgScale (vmin : Z) (vmax : F)
  | MsgExtent
  | MsgRoads
  | MsgRoadsFailed
  | MsgRendered
  | MsgCities (n : nat)
  | MsgSaved (path : string)
  | MsgSaveError.

Inductive feature :=
  | LAND | OCEAN | COASTLINE | BORDERS | STATE_LINES | ROADS.

(** The calls that reach matplotlib and cartopy, with the arguments the
    script computes. *)
Inductive call :=
  | Figure
  | MercatorAxes
  | SetExtent (lon_min lon_max lat_min lat_max : F)
  | AddFeature (f : feature)
  | GetCmap (name : string)
  | Imshow (depths : masked_array) (lon_min lon_max lat_min lat_max : F)
           (cmap : string) (alpha : F) (vmin : Z) (vmax : F)
  | PopulatedPlaces
  | PlotMarker (lon lat : F)
  | Text (lon lat : F) (s : string)
  | Colorbar
  | Title (s : string)
  | TightLayout
  | Savefig (path : string).

Inductive event :=
  | Log (lvl : level) (msg : message)
  | Render (c : call)
  | ArgparseError.           (* usage and error message on stderr *)

Inductive exn :=
  | KeyError (key : string)
  | ConversionError          (* TypeError, ValueError or OverflowError of int(), float(), np.array *)
  | IndexError
  | ValueError
  | IOError.

(** How a block of the script ends when it does not fall through. *)
Inductive stop :=
  | Returned                 (* a [return] inside [main] *)
  | Raised (e : exn)
  | Exited (code : Z).       (* sys.exit from argparse *)

Inductive outcome (A : Type) :=
  | Val (a : A)
  | Stop (s : stop).
Global Arguments Val {A} a.
Global Arguments Stop {A} s.

Definition M (A : Type) : Type := list event * outcome A.

Global Instance M_ret : MRet M := λ A a, ([], Val a).
Global Instance M_bind : MBind M := λ A B f m,
  match m with
  | (t, Val a) => let '(t', r) := f a in (t ++ t', r)
  | (t, Stop s) => (t, Stop s)
  end.

Global Instance M_fmap : FMap M := λ A B f m,
  match m with
  | (t, Val a) => (t, Val (f a))
  | (t, Stop s) => (t, Stop s)
  end.

Definition emit (e : event) : M unit := ([e], Val ()).
Definition logger (lvl : level) (msg : message) : M unit := emit (Log lvl msg).
Definition render (c : call) : M unit := emit (Render c).
Definition raise {A} (e : exn) : M A := ([], Stop (Raised e)).
Definition return_ {A} : M A := ([], Stop Returned).
Definition sys_exit {A} (code : Z) : M A := ([], Stop (Exited code)).

Definition trace {A} (m : M A) : list event := m.1.
Definition result {A} (m : M A) : outcome A := m.2.

(** Lifting a partial library function: [None] raises. *)
Definition or_raise {A} (e : exn) (o : option A) : M A :=
  match o with
  | Some a => mret a
  | None => raise e
  end.

(** ** [parse_arguments] (lines 12-26)

    The command line is taken after argparse has split it into option
    occurrences: which of the eight declared options, and the raw text of
    its argument.  A later occurrence of an option overrides an earlier
    one. *)

Inductive flag :=
  | data_file_flag | meta_file_flag | output_file_flag | cmap_flag
  | alpha_flag | scale_mode_flag | user_max_flag | title_flag.

Global Instance flag_eq_dec : EqDecision flag.
Proof. solve_decision. Defined.

(** The namespace while options are being consumed; the three required
    options have no default. *)
Record namespace := Namespace {
  ns_data_file : option string;
  ns_meta_file : option string;
  ns_output_file : option string;
  ns_cmap : string;
  ns_alpha : F;
  ns_scale_mode : string;
  ns_user_max : option F;
  ns_title : string
}.

Definition defaults : namespace := {|
  ns_data_file := None;
  ns_meta_file := None;
  ns_output_file := None;
  ns_cmap := "viridis";
  ns_alpha := fone;
  ns_scale_mode := "metadata";
  ns_user_max := None;
  ns_title := "Z2.5 depth data for California CVMs."
|}.

Definition choices : list string := ["metadata"; "datamax"; "user"].

(** One occurrence: [type=float] conversion for [--alpha] and
    [--user_max], the [choices] check for [--scale_mode]. *)
Definition consume (ns : namespace) (o : flag * string) : option namespace :=
  let '(f, s) := o in
  match f with
  | data_file_flag => Some (Namespace (Some s) (ns_meta_file ns) (ns_output_file ns)
      (ns_cmap ns) (ns_alpha ns) (ns_scale_mode ns) (ns_user_max ns) (ns_title ns))
  | meta_file_flag => Some (Namespace (ns_data_file ns) (Some s) (ns_output_file ns)
      (ns_cmap ns) (ns_alpha ns) (ns_scale_mode ns) (ns_user_max ns) (ns_title ns))
  | output_file_flag => Some (Namespace (ns_data_file ns) (ns_meta_file ns) (Some s)
      (ns_cmap ns) (ns_alpha ns) (ns_scale_mode ns) (ns_user_max ns) (ns_title ns))
  | cmap_flag => Some (Namespace (ns_data_file ns) (ns_meta_file ns) (ns_output_file ns)
      s (ns_alpha ns) (ns_scale_mode ns) (ns_user_max ns) (ns_title ns))
  | alpha_flag =>
      x ← float_of_string s;
      Some (Namespace (ns_data_file ns) (ns_meta_file ns) (ns_output_file ns)
        (ns_cmap ns) x (ns_scale_mode ns) (ns_user_max ns) (ns_title ns))
  | scale_mode_flag =>
      if bool_decide (s ∈ choices)
      then Some (Namespace (ns_data_file ns) (ns_meta_file ns) (ns_output_file ns)
        (ns_cmap ns) (ns_alpha ns) s (ns_user_max ns) (ns_title ns))
      else None
  | user_max_flag =>
      x ← float_of_string s;
      Some (Namespace (ns_data_file ns) (ns_meta_file ns) (ns_output_file ns)
        (ns_cmap ns) (ns_alpha ns) (ns_scale_mode ns) (Some x) (ns_title ns))
  | title_flag => Some (Namespace (ns_data_file ns) (ns_meta_file ns) (ns_output_file ns)
      (ns_cmap ns) (ns_alpha ns) (ns_scale_mode ns) (ns_user_max ns) s)
  end.

Fixpoint consume_all (ns : namespace) (argv : list (flag * string)) : option namespace :=
  match argv with
  | [] => Some ns
  | o :: argv' => ns' ← consume ns o; consume_all ns' argv'
  end.

(** What [parser.parse_args()] returns. *)
Record Args := MkArgs {
  data_file : string;
  meta_file : string;
  output_file : string;
  cmap : string;
  alpha : F;
  scale_mode : string;
  user_max : option F;
  title : string
}.

(** The [required=True] check, made once every occurrence is consumed. *)
Definition required (ns : namespace) : option Args :=
  d ← ns_data_file ns;
  m ← ns_meta_file ns;
  o ← ns_output_file ns;
  Some (MkArgs d m o (ns_cmap ns) (ns_alpha ns) (ns_scale_mode ns)
          (ns_user_max ns) (ns_title ns)).

(** Every argparse failure goes through [parser.error]: a message on
    stderr and exit status 2. *)
Definition parse_arguments (argv : list (flag * string)) : M Args :=
  match consume_all defaults argv ≫= required with
  | Some args => mret args
  | None => emit ArgparseError;; sys_exit 2
  end.

(** ** The metadata block (lines 39-54) *)

Definition getitem (meta : gmap string jvalue) (key : string) : M jvalue :=
  or_raise (KeyError key) (meta !! key).

Definition float_of_jnum (n : jnum) : option F :=
  match n with
  | JInt n => float_of_int n
  | JFloat x => Some x
  end.

(** [float(v)]: a list is a TypeError. *)
Definition py_float (v : jvalue) : M F :=
  match v with
  | JNum n => or_raise ConversionError (float_of_jnum n)
  | JList _ => raise ConversionError
  end.

(** [int(v)]: truncation of a float, a TypeError on a list. *)
Definition py_int (v : jvalue) : M Z :=
  match v with
  | JNum (JInt n) => mret n
  | JNum (JFloat x) => or_raise ConversionError (int_of_float x)
  | JList _ => raise ConversionError
  end.

(** [np.array(v, dtype=float)]. *)
Definition np_array (v : jvalue) : M ndarray :=
  match v with
  | JNum n => Arr0 <$> or_raise ConversionError (float_of_jnum n)
  | JList l => Arr1 <$> or_raise ConversionError (mapM float_of_jnum l)
  end.

(** [a.min()] and [a.max()]: a reduction from the first element; an empty
    array has no identity to start from and raises ValueError. *)
Definition np_reduce (op : F → F → F) (a : ndarray) : M F :=
  match a with
  | Arr0 x => mret x
  | Arr1 [] => raise ValueError
  | Arr1 (x :: l) => mret (foldl op x l)
  end.
Definition np_min : ndarray → M F := np_reduce fminimum.
Definition np_max : ndarray → M F := np_reduce fmaximum.

(** [a[0]] and [a[-1]]: a zero-dimensional array cannot be indexed, an
    empty one has no element. *)
Definition index_first (a : ndarray) : M F :=
  match a with
  | Arr0 _ => raise IndexError
  | Arr1 l => or_raise IndexError (head l)
  end.
Definition index_last (a : ndarray) : M F :=
  match a with
  | Arr0 _ => raise IndexError
  | Arr1 l => or_raise IndexError (last l)
  end.

Record metadata := Metadata {
  lat_list : ndarray;
  lon_list : ndarray;
  nx : Z;
  ny : Z;
  meta_max : option F
}.

(** [args.scale_mode = s]. *)
Definition set_scale_mode (args : Args) (s : string) : Args :=
  MkArgs (data_file args) (meta_file args) (output_file args) (cmap args)
         (alpha args) s (user_max args) (title args).

Definition load_metadata (args : Args) (meta : gmap string jvalue)
    : M (Args * metadata) :=
  lat_list ← getitem meta "lat_list" ≫= np_array;
  lon_list ← getitem meta "lon_list" ≫= np_array;
  nx ← getitem meta "nx" ≫= py_int;
  ny ← getitem meta "ny" ≫= py_int;
  '(args, meta_max) ←
    match meta !! "max depth" with
    | Some v => x ← py_float v; mret (args, Some x)
    | None =>
        logger WARNING MsgNoMaxDepth;;
        mret (set_scale_mode args "datamax", None)
    end;
  lat_lo ← np_min lat_list;
  lat_hi ← np_max lat_list;
  logger INFO (MsgMetadata nx ny lat_lo lat_hi);;
  mret (args, Metadata lat_list lon_list nx ny meta_max).

(** ** Depth extraction (lines 60-64)

    [data] is the two-dimensional array [np.loadtxt] returned, row by
    row. *)

(** [data[:,k]]: IndexError when the table has no column [k]. *)
Definition column (k : nat) (data : list (list F)) : M (list F) :=
  or_raise IndexError (mapM (λ row : list F, row !! k) data).

(** [np.where(cond, a, b)] on arrays of one shape. *)
Fixpoint np_where (cond : list bool) (a b : list F) : list F :=
  match cond, a, b with
  | c :: cond, x :: a, y :: b => (if c then x else y) :: np_where cond a b
  | _, _, _ => []
  end.

Definition extract_depths (data : list (list F)) : M (list F) :=
  flags ← column 2 data;
  col3 ← column 3 data;
  col4 ← column 4 data;
  mret (np_where ((λ x, feqb x fone) <$> flags) col3 col4).

(** ** Size check, reshape, mask and flip (lines 66-77) *)

(** [a.reshape((ny, nx))] for an array of [nx*ny] elements: [ny] rows of
    [nx] consecutive elements each.  A negative dimension is refused (the
    [-1] wildcard cannot be resolved when the sizes already multiply to the
    length). *)
Definition np_reshape (a : list F) (ny nx : Z) : M (list (list F)) :=
  if bool_decide (0 ≤ ny ∧ 0 ≤ nx ∧ Z.of_nat (length a) = ny * nx)
  then mret (reshape (replicate (Z.to_nat ny) (Z.to_nat nx)) a)
  else raise ValueError.

(** [np.ma.masked_equal(a, v)]. *)
Definition masked_equal (a : list (list F)) (v : F) : masked_array :=
  MaskedArray a (fmap (M:=list) (λ x, feqb x v) <$> a).

(** [np.flipud]: the rows in reverse order, masks with them. *)
Definition flipud (a : masked_array) : masked_array :=
  MaskedArray (reverse (ma_data a)) (reverse (ma_mask a)).

Definition build_grid (md : metadata) (depths_flat : list F) : M masked_array :=
  if bool_decide (Z.of_nat (length depths_flat) ≠ nx md * ny md)
  then
    logger ERROR (MsgSizeMismatch (nx md * ny md) (length depths_flat));;
    return_
  else
    depths ← np_reshape depths_flat (ny md) (nx md);
    let depths := masked_equal depths fminus_one in
    lat_first ← index_first (lat_list md);
    lat_last ← index_last (lat_list md);
    let lat_ascending := fltb lat_first lat_last in
    if negb lat_ascending
    then
      let depths := flipud depths in
      logger INFO MsgFlipped;;
      mret depths
    else mret depths.

(** ** Colour scale (lines 80-101) *)

(** The cells and mask bits in row-major order. *)
Definition cells (a : masked_array) : list (F * bool) :=
  zip (concat (ma_data a)) (concat (ma_mask a)).

Definition unmasked (a : masked_array) : list F :=
  fst <$> filter (λ c : F * bool, c.2 = false) (cells a).

(** [a.mask.all()].  numpy keeps no mask array when no cell is masked
    ([nomask], whose [all()] is false), so the test holds when some cell
    is masked and every cell is. *)
Definition mask_all (a : masked_array) : bool :=
  existsb snd (cells a) && forallb snd (cells a).

(** [a.max()] over the cells that are not masked. *)
Definition ma_max (a : masked_array) : option F :=
  match unmasked a with
  | [] => None
  | x :: l => Some (foldl fmaximum x l)
  end.

Definition vmin : Z := 0.

Definition resolve_scale (args : Args) (md : metadata) (depths : masked_array)
    : M F :=
  vmax ←
    (if String.eqb (scale_mode args) "metadata" then
       match meta_max md with
       | None => logger ERROR MsgNoMetaMax;; return_
       | Some m => mret m
       end
     else if String.eqb (scale_mode args) "datamax" then
       if mask_all depths
       then logger WARNING MsgAllMissing;; mret fzero
       else or_raise ValueError (ma_max depths)
     else if String.eqb (scale_mode args) "user" then
       match user_max args with
       | None => logger ERROR MsgNeedUserMax;; return_
       | Some u => mret u
       end
     else
       logger ERROR MsgInvalidMode;; return_);
  logger INFO (MsgScale vmin vmax);;
  mret vmax.

(** ** Rendering (lines 104-173) *)

(** What the run finds outside the command line: the two input files, the
    populated-places table, and whether the two calls the script wraps in
    [try]/[except] raise.  Every other library call is taken to succeed. *)
Record world := World {
  json_load : string → option (gmap string jvalue);  (* None: open or json.load raises *)
  loadtxt : string → option (list (list F));         (* None: np.loadtxt raises *)
  records : list place;
  roads_raise : bool;
  savefig_raises : bool
}.

(** [if pop and pop >= 500000]. *)
Definition major (pop : option Z) : bool :=
  match pop with
  | None => false
  | Some p => negb (p =? 0) && (500000 <=? p)
  end.

(** [lon_min <= lon_pt <= lon_max and lat_min <= lat_pt <= lat_max]. *)
Definition in_box (lon_min lon_max lat_min lat_max lon_pt lat_pt : F) : bool :=
  fleb lon_min lon_pt && fleb lon_pt lon_max &&
  (fleb lat_min lat_pt && fleb lat_pt lat_max).

(** The body of the loop over [reader.records()], with the counter it
    updates. *)
Definition plot_city (lon_min lon_max lat_min lat_max : F)
    (cities_plotted : nat) (rec : place) : M nat :=
  let name := NAME rec in
  if String.eqb name "Oakland" then mret cities_plotted
  else
    let pop := POP_MAX rec in
    if major pop then
      let lon_pt := geometry_x rec in
      let lat_pt := geometry_y rec in
      if in_box lon_min lon_max lat_min lat_max lon_pt lat_pt then
        render (PlotMarker lon_pt lat_pt);;
        render (Text (fadd lon_pt ftenth) (fadd lat_pt ftenth) (NAME rec));;
        mret (S cities_plotted)
      else mret cities_plotted
    else mret cities_plotted.

Fixpoint plot_cities (lon_min lon_max lat_min lat_max : F)
    (cities_plotted : nat) (recs : list place) : M nat :=
  match recs with
  | [] => mret cities_plotted
  | rec :: recs =>
      n ← plot_city lon_min lon_max lat_min lat_max cities_plotted rec;
      plot_cities lon_min lon_max lat_min lat_max n recs
  end.

Definition draw (w : world) (args : Args) (md : metadata)
    (depths : masked_array) (vmax : F) : M unit :=
  render Figure;;
  render MercatorAxes;;
  lon_min ← np_min (lon_list md);
  lon_max ← np_max (lon_list md);
  lat_min ← np_min (lat_list md);
  lat_max ← np_max (lat_list md);
  render (SetExtent lon_min lon_max lat_min lat_max);;
  logger INFO MsgExtent;;
  render (AddFeature LAND);;
  render (AddFeature OCEAN);;
  render (AddFeature COASTLINE);;
  render (AddFeature BORDERS);;
  render (AddFeature STATE_LINES);;
  (if roads_raise w
   then logger WARNING MsgRoadsFailed
   else render (AddFeature ROADS);; logger INFO MsgRoads);;
  render (GetCmap (cmap args));;
  render (Imshow depths lon_min lon_max lat_min lat_max
                 (cmap args) (alpha args) vmin vmax);;
  logger INFO MsgRendered;;
  render PopulatedPlaces;;
  cities_plotted ← plot_cities lon_min lon_max lat_min lat_max 0%nat (records w);
  logger INFO (MsgCities cities_plotted);;
  render Colorbar;;
  render (Title (title args));;
  render TightLayout;;
  (if savefig_raises w
   then logger ERROR MsgSaveError
   else render (Savefig (output_file args));;
        logger INFO (MsgSaved (output_file args))).

(** ** [main] (lines 30-173) *)

(** The script once the arguments are parsed. *)
Definition run (w : world) (args : Args) : M unit :=
  meta ← or_raise IOError (json_load w (meta_file args));
  '(args, md) ← load_metadata args meta;
  data ← or_raise IOError (loadtxt w (data_file args));
  depths_flat ← extract_depths data;
  depths ← build_grid md depths_flat;
  vmax ← resolve_scale args md depths;
  draw w args md depths vmax.

Definition main (w : world) (argv : list (flag * string)) : M unit :=
  args ← parse_arguments argv;
  run w args.

(** An event of the rendering stage: any call into the plotting
    libraries. *)
Definition is_render (e : event) : bool :=
  match e with
  | Render _ => true
  | _ => false
  end.

(** The event that writes the output file. *)
Definition is_savefig (e : event) : bool :=
  match e with
  | Render (Savefig _) => true
  | _ => false
  end.

End Pipeline.

Global Arguments jnum F : clear implicits.
Global Arguments jvalue F : clear implicits.
Global Arguments ndarray F : clear implicits.
Global Arguments masked_array F : clear implicits.
Global Arguments place F : clear implicits.
Global Arguments message F : clear implicits.
Global Arguments call F : clear implicits.
Global Arguments event F : clear implicits.
Global Arguments M F A : clear implicits.
Global Arguments namespace F : clear implicits.
Global Arguments Args F : clear implicits.
Global Arguments metadata F : clear implicits.
Global Arguments world F : clear implicits.

(** ** Vocabulary of the properties *)

Section Vocabulary.
Context {F : Type} `{!FloatOps F}.

(** The grid before any flip: the reshaped depths with the cells equal to
    -1.0 masked. *)
Definition grid_of (md : metadata F) (depths_flat : list F) : masked_array F :=
  masked_equal
    (reshape (replicate (Z.to_nat (ny md)) (Z.to_nat (nx md))) depths_flat)
    fminus_one.

(** The cell at row [i], column [j]. *)
Definition cell {A} (rows : list (list A)) (i j : nat) : option A :=
  rows !! i ≫= (λ row, row !! j).

(** A computation is quiet when its trace holds no rendering call. *)
Definition quiet {A} (m : M F A) : Prop :=
  Forall (λ e, is_render e = false) (trace m).



(** The world in which key [k] is removed from every metadata file. *)
Definition without_key (k : string) (w : world F) : world F :=
  World (λ path, delete k <$> json_load w path)
        (loadtxt w) (records w) (roads_raise w) (savefig_raises w).

(** The records the loop plots: not named "Oakland", a population of at
    least 500000, inside the box. *)
Definition plotted (lon_min lon_max lat_min lat_max : F) (rec : place F) : bool :=
  negb (String.eqb (NAME rec) "Oakland") && major (POP_MAX rec) &&
  in_box lon_min lon_max lat_min lat_max (geometry_x rec) (geometry_y rec).

(** What one plotted record draws: a marker at the point and the name,
    0.1 to the right and 0.1 up. *)
Definition city_events (rec : place F) : list (event F) :=
  [Render (PlotMarker (geometry_x rec) (geometry_y rec));
   Render (Text (fadd (geometry_x rec) ftenth) (fadd (geometry_y rec) ftenth)
                (NAME rec))].

(** The events of [draw] when the four bounds of the box exist. *)
Definition draw_events (w : world F) (args : Args F) (depths : masked_array F)
    (vmax lon_min lon_max lat_min lat_max : F) : list (event F) :=
  [Render Figure; Render MercatorAxes;
   Render (SetExtent lon_min lon_max lat_min lat_max); Log INFO MsgExtent;
   Render (AddFeature LAND); Render (AddFeature OCEAN);
   Render (AddFeature COASTLINE); Render (AddFeature BORDERS);
   Render (AddFeature STATE_LINES)] ++
  (if roads_raise w then [Log WARNING MsgRoadsFailed]
   else [Render (AddFeature ROADS); Log INFO MsgRoads]) ++
  [Render (GetCmap (cmap args));
   Render (Imshow depths lon_min lon_max lat_min lat_max
                  (cmap args) (alpha args) vmin vmax);
   Log INFO MsgRendered; Render PopulatedPlaces] ++
  trace (plot_cities lon_min lon_max lat_min lat_max 0%nat (records w)) ++
  [Log INFO (MsgCities
     (length (filter (λ rec, plotted lon_min lon_max lat_min lat_max rec = true)
                     (records w))));
   Render Colorbar; Render (Title (title args)); Render TightLayout] ++
  (if savefig_raises w then [Log ERROR MsgSaveError]
   else [Render (Savefig (output_file args));
         Log INFO (MsgSaved (output_file args))]).

(** An occurrence argparse refuses: a scale mode outside the choices, or
    an [--alpha] or [--user_max] argument that [float] cannot read. *)
Definition refused (o : flag * string) : Prop :=
  match o.1 with
  | scale_mode_flag => o.2 ∉ choices
  | alpha_flag | user_max_flag => float_of_string (F:=F) o.2 = None
  | _ => False
  end.

(** The three required slots of the namespace, by flag. *)
Definition slot (f : flag) (ns : namespace F) : option string :=
  match f with
  | data_file_flag => ns_data_file ns
  | meta_file_flag => ns_meta_file ns
  | output_file_flag => ns_output_file ns
  | _ => Some ""
  end.

(** Every event of a computation satisfies [P]. *)
Definition all_events {A} (P : event F → Prop) (m : M F A) : Prop :=
  Forall P (trace m).

(** The value an option holds: a path that may still be missing, a
    string, a float, or a float that may be absent. *)
Inductive fval :=
  | FPath (o : option string)
  | FStr (s : string)
  | FNum (x : F)
  | FOptNum (o : option F).

(** The value of option [f] in the namespace and in the parsed
    arguments. *)
Definition ns_field (f : flag) (ns : namespace F) : fval :=
  match f with
  | data_file_flag => FPath (ns_data_file ns)
  | meta_file_flag => FPath (ns_meta_file ns)
  | output_file_flag => FPath (ns_output_file ns)
  | cmap_flag => FStr (ns_cmap ns)
  | alpha_flag => FNum (ns_alpha ns)
  | scale_mode_flag => FStr (ns_scale_mode ns)
  | user_max_flag => FOptNum (ns_user_max ns)
  | title_flag => FStr (ns_title ns)
  end.

Definition args_field (f : flag) (args : Args F) : fval :=
  match f with
  | data_file_flag => FPath (Some (data_file args))
  | meta_file_flag => FPath (Some (meta_file args))
  | output_file_flag => FPath (Some (output_file args))
  | cmap_flag => FStr (cmap args)
  | alpha_flag => FNum (alpha args)
  | scale_mode_flag => FStr (scale_mode args)
  | user_max_flag => FOptNum (user_max args)
  | title_flag => FStr (title args)
  end.

(** What the text [s] given to option [f] stands for: itself for the
    paths and strings, its reading as a float for [--alpha] and
    [--user_max]. *)
Definition reading (f : flag) (s : string) : option fval :=
  match f with
  | data_file_flag | meta_file_flag | output_file_flag => Some (FPath (Some s))
  | cmap_flag | scale_mode_flag | title_flag => Some (FStr s)
  | alpha_flag => FNum <$> float_of_string s
  | user_max_flag => (λ x, FOptNum (Some x)) <$> float_of_string s
  end.

(** A marker of the city loop, a label, the image call. *)
Definition is_marker (e : event F) : bool :=
  match e with
  | Render (PlotMarker _ _) => true
  | _ => false
  end.

Definition is_label (e : event F) : bool :=
  match e with
  | Render (Text _ _ _) => true
  | _ => false
  end.

(** The three errors of the scale block's guards. *)
Definition is_guard_error (e : event F) : bool :=
  match e with
  | Log ERROR MsgNoMetaMax | Log ERROR MsgNeedUserMax
  | Log ERROR MsgInvalidMode => true
  | _ => false
  end.

Definition is_imshow (e : event F) : bool :=
  match e with
  | Render (Imshow _ _ _ _ _ _ _ _ _) => true
  | _ => false
  end.

End Vocabulary.

(** ** Exact arithmetic as a carrier

    The rationals implement the interface with no NaN and no rounding;
    the examples below run on them. *)

Definition Q_of_digit (c : Ascii.ascii) : option Z :=
  let n := Z.of_nat (Ascii.nat_of_ascii c) in
  if bool_decide (48 ≤ n ≤ 57) then Some (n - 48) else None.

(** Unsigned decimal integers, enough for the command lines of the
    examples. *)
Fixpoint Q_of_digits (acc : Z) (s : string) : option Z :=
  match s with
  | EmptyString => Some acc
  | String c s => d ← Q_of_digit c; Q_of_digits (10 * acc + d) s
  end.

Definition Q_of_string (s : string) : option Q :=
  match s with
  | EmptyString => None
  | _ => inject_Z <$> Q_of_digits 0 s
  end.

Global Instance Q_ops : FloatOps Q := {|
  feqb := Qeq_bool;
  fltb x y := negb (Qle_bool y x);
  fleb := Qle_bool;
  fadd := Qplus;
  fmaximum x y := if Qle_bool x y then y else x;
  fminimum x y := if Qle_bool x y then x else y;
  fzero := 0%Q;
  fone := 1%Q;
  fminus_one := (-1)%Q;
  ftenth := (1 # 10)%Q;
  float_of_int n := Some (inject_Z n);
  int_of_float x := Some (Z.quot (Qnum x) (Z.pos (Qden x)));
  float_of_string := Q_of_string
|}.

(** * Examples on exact arithmetic

    The scenario of the specification: a 2 by 2 grid, four rows of data
    with the flag in column 2, latitudes given south to north. *)

Definition ex_meta_with (lats : list Q) : gmap string (jvalue Q) :=
  <["lat_list" := JList (JFloat <$> lats)]>
  (<["lon_list" := JList [JInt (-120); JInt (-118)]]>
  (<["nx" := JNum (JInt 2)]>
  (<["ny" := JNum (JInt 2)]>
  (<["max depth" := JNum (JInt 5000)]> ∅)))).

Definition ex_meta : gmap string (jvalue Q) := ex_meta_with [34%Q; 35%Q].

(** The same file with the key spelled ['max_depth']. *)
Definition ex_meta_underscore : gmap string (jvalue Q) :=
  <["max_depth" := JNum (JInt 5000)]> (delete "max depth" ex_meta).

Definition ex_data : list (list Q) :=
  [[0; 0; 1; 5; 9]; [0; 0; 0; 9; 7]; [0; 0; 1; 3; 9]; [0; 0; 0; 9; 2]]%Q.

Definition ex_places : list (place Q) :=
  [Place "Oakland" (Some 600000) (-119)%Q 34.5%Q;
   Place "Los Angeles" (Some 3900000) (-118)%Q 34%Q;
   Place "Ojai" (Some 7500) (-119)%Q 34.5%Q].

Definition ex_world (meta : gmap string (jvalue Q)) (data : list (list Q))
    : world Q :=
  World (λ _, Some meta) (λ _, Some data) ex_places false false.

Definition ex_argv : list (flag * string) :=
  [(data_file_flag, "z25.txt"); (meta_file_flag, "z25.json");
   (output_file_flag, "z25.png")].

Definition ex_args (mode : string) (umax : option Q) : Args Q :=
  MkArgs "z25.txt" "z25.json" "z25.png" "viridis" 1%Q mode umax
         "Z2.5 depth data for California CVMs.".

Definition ex_md (lats : list Q) : metadata Q :=
  Metadata (Arr1 lats) (Arr1 [(-120)%Q; (-118)%Q]) 2 2 (Some 5000%Q).

Definition ex_flat : list Q := [5; 7; 3; 2]%Q.

(** * Properties *)

(** The rationals satisfy the order laws. *)
Global Instance Q_laws : FloatLaws Q.
Proof.
  split; cbn.
  - intros x y z Hxy Hyz. apply negb_true_iff in Hxy, Hyz. apply negb_true_iff.
    destruct (Qle_bool z x) eqn:Hzx; [|done].
    apply Qle_bool_iff in Hzx.
    assert (Qle_bool z y = true) as Hzy; [|congruence].
    apply Qle_bool_iff, Qlt_le_weak.
    eapply Qle_lt_trans; [exact Hzx|].
    apply Qnot_le_lt. intros Hyx. apply Qle_bool_iff in Hyx. congruence.
  - intros x y z Hxy Hyz. apply Qle_bool_iff in Hxy, Hyz. apply Qle_bool_iff.
    eapply Qle_trans; eauto.
  - intros x y H. by rewrite H.
  - intros x. apply negb_false_iff, Qle_bool_iff, Qle_refl.
  - intros x y. destruct (Qle_bool x y); auto.
  - intros x y _ _. destruct (Qle_bool x y) eqn:E; [done|].
    apply Qle_bool_iff, Qle_refl.
  - intros x y _ _. destruct (Qle_bool x y) eqn:E.
    + apply Qle_bool_iff, Qle_refl.
    + apply Qle_bool_iff. destruct (Qlt_le_dec x y) as [Hlt|Hle]; [|done].
      apply Qlt_le_weak in Hlt. apply Qle_bool_iff in Hlt. congruence.
Qed.


Section Properties.
Context {F : Type} `{!FloatOps F}.

(** ** The monad *)

Lemma bind_val {A B} (m : M F A) (f : A → M F B) (t : list (event F)) a :
  m = (t, Val a) → m ≫= f = (t ++ trace (f a), result (f a)).
Proof. intros ->. unfold trace, result. simpl. by destruct (f a). Qed.

Lemma bind_stop {A B} (m : M F A) (f : A → M F B) (t : list (event F)) s :
  m = (t, Stop s) → m ≫= f = (t, Stop s).
Proof. by intros ->. Qed.

Lemma bind_val_inv {A B} (m : M F A) (f : A → M F B) (t : list (event F)) b :
  m ≫= f = (t, Val b) →
  ∃ t1 a t2, m = (t1, Val a) ∧ f a = (t2, Val b) ∧ t = t1 ++ t2.
Proof.
  destruct m as [t1 [a|s]]; simpl; [|done].
  destruct (f a) as [t2 r] eqn:Hf. intros [= <- ->]. by exists t1, a, t2.
Qed.

Lemma bind_mret {A B} (a : A) (f : A → M F B) : mret a ≫= f = f a.
Proof. unfold mret, M_ret. simpl. by destruct (f a). Qed.

Lemma or_raise_Some {A} e (o : option A) a :
  o = Some a → or_raise (F:=F) e o = mret a.
Proof. by intros ->. Qed.

(** ** Depth selection *)





(** ** Reshape and mask *)

Lemma reshape_replicate_lookup {A} (m n i : nat) (l : list A) :
  (i < m)%nat →
  reshape (replicate m n) l !! i = Some (take n (drop (i * n) l)).
Proof.
  revert l i. induction m as [|m IH]; intros l i Hi; [lia|].
  destruct i as [|i]; simpl.
  - done.
  - rewrite IH by lia. by rewrite drop_drop.
Qed.

Lemma reshape_replicate_cell {A} (m n i j : nat) (l : list A) :
  (i < m)%nat → (j < n)%nat →
  cell (reshape (replicate m n) l) i j = l !! (i * n + j)%nat.
Proof.
  intros Hi Hj. unfold cell. rewrite reshape_replicate_lookup by done. simpl.
  rewrite lookup_take_lt by done. by rewrite lookup_drop.
Qed.

Lemma masked_equal_mask_cell (rows : list (list F)) (v : F) (i j : nat) :
  cell (ma_mask (masked_equal rows v)) i j = (λ x, feqb x v) <$> cell rows i j.
Proof.
  unfold cell, masked_equal. simpl. rewrite list_lookup_fmap.
  destruct (rows !! i) as [row|]; simpl; [|done].
  by rewrite list_lookup_fmap.
Qed.

Lemma np_reshape_ok (a : list F) (ny nx : Z) :
  0 ≤ ny → 0 ≤ nx → Z.of_nat (length a) = nx * ny →
  np_reshape a ny nx = mret (reshape (replicate (Z.to_nat ny) (Z.to_nat nx)) a).
Proof.
  intros Hy Hx Hlen. unfold np_reshape. rewrite bool_decide_eq_true_2; [done|].
  lia.
Qed.

(** What [build_grid] does once the size check passes and the latitude
    list has a first and a last entry. *)
Lemma build_grid_ok (md : metadata F) (depths_flat l : list F) (lat_first lat_last : F) :
  0 ≤ nx md → 0 ≤ ny md →
  Z.of_nat (length depths_flat) = nx md * ny md →
  lat_list md = Arr1 l → head l = Some lat_first → last l = Some lat_last →
  build_grid md depths_flat =
    if fltb lat_first lat_last
    then ([], Val (grid_of md depths_flat))
    else ([Log INFO MsgFlipped], Val (flipud (grid_of md depths_flat))).
Proof.
  intros Hx Hy Hlen Hlat Hfirst Hlast. unfold build_grid.
  rewrite bool_decide_eq_false_2 by (intros ?; lia).
  rewrite np_reshape_ok, bind_mret by done.
  rewrite Hlat. unfold index_first, index_last. rewrite Hfirst, Hlast.
  simpl. by destruct (fltb lat_first lat_last).
Qed.

(** C2. With non-negative dimensions, a latitude list that has entries and
    [nx*ny] depths, the grid is built; before any flip it has [ny] rows,
    row [i] holds the [nx] depths from position [i*nx] on, so that cell
    [(i, j)] is depth [i*nx + j], and exactly the cells equal to -1.0 are
    masked.  The grid handed on is this one, or its vertical flip. *)
Theorem C2_reshape_row_major (md : metadata F) (depths_flat l : list F)
    (lat_first lat_last : F) :
  0 ≤ nx md → 0 ≤ ny md →
  Z.of_nat (length depths_flat) = nx md * ny md →
  lat_list md = Arr1 l → head l = Some lat_first → last l = Some lat_last →
  let g := grid_of md depths_flat in
  let n := Z.to_nat (nx md) in
  result (build_grid md depths_flat)
    = Val (if fltb lat_first lat_last then g else flipud g) ∧
  length (ma_data g) = Z.to_nat (ny md) ∧
  (∀ i, (i < Z.to_nat (ny md))%nat →
     ma_data g !! i = Some (take n (drop (i * n) depths_flat)) ∧
     length (take n (drop (i * n) depths_flat)) = n) ∧
  (∀ i j, (i < Z.to_nat (ny md))%nat → (j < n)%nat →
     cell (ma_data g) i j = depths_flat !! (i * n + j)%nat ∧
     is_Some (depths_flat !! (i * n + j)%nat)) ∧
  (∀ i j, cell (ma_mask g) i j
          = (λ x, feqb x fminus_one) <$> cell (ma_data g) i j).
Proof.
  intros Hx Hy Hlen Hlat Hfirst Hlast g n. repeat split.
  - rewrite (build_grid_ok md depths_flat l lat_first lat_last) by done.
    by destruct (fltb lat_first lat_last).
  - unfold g, grid_of. simpl. by rewrite length_reshape, length_replicate.
  - unfold g, grid_of. simpl. by apply reshape_replicate_lookup.
  - rewrite length_take, length_drop. subst n. nia.
  - unfold g, grid_of. simpl. by apply reshape_replicate_cell.
  - apply lookup_lt_is_Some_2. subst n. nia.
  - intros i j. apply masked_equal_mask_cell.
Qed.

(** ** Blocks that never reach the plotting libraries *)

Lemma quiet_bind {A B} (m : M F A) (f : A → M F B) :
  quiet m → (∀ a, quiet (f a)) → quiet (m ≫= f).
Proof.
  unfold quiet, trace. intros Hm Hf. destruct m as [t [a|s]]; simpl; [|done].
  specialize (Hf a). destruct (f a) as [t' r]. simpl in *.
  by apply Forall_app_2.
Qed.

Lemma quiet_fmap {A B} (g : A → B) (m : M F A) : quiet m → quiet (g <$> m).
Proof. unfold quiet, trace. by destruct m as [t [a|s]]. Qed.

Lemma quiet_mret {A} (a : A) : quiet (F:=F) (mret a).
Proof. by constructor. Qed.

Lemma quiet_raise {A} e : quiet (F:=F) (raise (A:=A) e).
Proof. by constructor. Qed.

Lemma quiet_return {A} : quiet (F:=F) (return_ (A:=A)).
Proof. by constructor. Qed.

Lemma quiet_or_raise {A} e (o : option A) : quiet (F:=F) (or_raise e o).
Proof. destruct o; by constructor. Qed.

Lemma quiet_logger lvl msg : quiet (F:=F) (logger lvl msg).
Proof. by repeat constructor. Qed.

Lemma quiet_emit_argparse : quiet (F:=F) (emit ArgparseError).
Proof. by repeat constructor. Qed.

Create HintDb quiet.
Hint Resolve quiet_fmap quiet_mret quiet_raise quiet_return quiet_or_raise
  quiet_logger quiet_emit_argparse : quiet.

Ltac solve_quiet :=
  repeat first
    [ progress eauto with quiet
    | apply quiet_bind; [|intros ?]
    | match goal with
      | |- quiet (match ?x with _ => _ end) => destruct x
      | |- quiet (if ?b then _ else _) => destruct b
      | |- quiet (let '(_, _) := ?x in _) => destruct x
      end ].

Lemma quiet_np_array (v : jvalue F) : quiet (np_array v).
Proof. unfold np_array. solve_quiet. Qed.

Lemma quiet_py_int (v : jvalue F) : quiet (py_int v).
Proof. unfold py_int. solve_quiet. Qed.

Lemma quiet_py_float (v : jvalue F) : quiet (py_float v).
Proof. unfold py_float. solve_quiet. Qed.

Lemma quiet_np_reduce (op : F → F → F) (a : ndarray F) : quiet (np_reduce op a).
Proof. unfold np_reduce. solve_quiet. Qed.

Hint Resolve quiet_np_array quiet_py_int quiet_py_float quiet_np_reduce : quiet.

Lemma quiet_load_metadata (args : Args F) meta : quiet (load_metadata args meta).
Proof. unfold load_metadata, getitem, np_min, np_max. solve_quiet. Qed.

Lemma quiet_extract_depths (data : list (list F)) : quiet (extract_depths data).
Proof. unfold extract_depths, column. solve_quiet. Qed.

Lemma quiet_build_grid (md : metadata F) depths_flat : quiet (build_grid md depths_flat).
Proof. unfold build_grid, np_reshape, index_first, index_last. solve_quiet. Qed.

Lemma quiet_parse_arguments argv : quiet (F:=F) (parse_arguments argv).
Proof. unfold parse_arguments, sys_exit. solve_quiet; by repeat constructor. Qed.

(** A run that stops before [resolve_scale] returns: nothing is drawn. *)
Lemma quiet_stop {A} (m : M F A) t s : m = (t, Stop s) → quiet m →
  Forall (λ e, is_render e = false) t.
Proof. by intros ->. Qed.

(** ** Size check *)



(** ** The vertical flip *)




Section Order.
Context `{!FloatLaws F}.





End Order.

(** ** The metadata fallback *)

(** The metadata block when the four mandatory keys load and the key
    ['max depth'] is missing. *)
Lemma load_metadata_fallback (args : Args F) (meta : gmap string (jvalue F))
    lat lon n m lo hi :
  getitem meta "lat_list" ≫= np_array = mret lat →
  getitem meta "lon_list" ≫= np_array = mret lon →
  getitem meta "nx" ≫= py_int = mret n →
  getitem meta "ny" ≫= py_int = mret m →
  np_min lat = mret lo → np_max lat = mret hi →
  meta !! "max depth" = None →
  load_metadata args meta =
    ([Log WARNING MsgNoMaxDepth; Log INFO (MsgMetadata n m lo hi)],
     Val (set_scale_mode args "datamax", Metadata lat lon n m None)).
Proof.
  intros Hlat Hlon Hn Hm Hlo Hhi Hkey. unfold load_metadata.
  rewrite Hlat, bind_mret, Hlon, bind_mret, Hn, bind_mret, Hm, bind_mret.
  rewrite Hkey. simpl. by rewrite Hlo, Hhi.
Qed.

(** The scale block in "datamax" mode. *)
Lemma resolve_scale_datamax (args : Args F) (md : metadata F) depths :
  scale_mode args = "datamax" →
  resolve_scale args md depths =
    if mask_all depths
    then ([Log WARNING MsgAllMissing; Log INFO (MsgScale 0 fzero)], Val fzero)
    else match ma_max depths with
         | Some v => ([Log INFO (MsgScale 0 v)], Val v)
         | None => ([], Stop (Raised ValueError))
         end.
Proof.
  intros Hmode. unfold resolve_scale. rewrite Hmode. simpl.
  destruct (mask_all depths); [done|]. by destruct (ma_max depths).
Qed.

(** In "datamax" mode the scale block logs no error and does not return. *)
Lemma resolve_scale_datamax_runs (args : Args F) (md : metadata F) depths :
  scale_mode args = "datamax" →
  result (resolve_scale args md depths) ≠ Stop Returned ∧
  ∀ msg, Log ERROR msg ∉ trace (resolve_scale args md depths).
Proof.
  intros Hmode. rewrite resolve_scale_datamax by done.
  destruct (mask_all depths); [|destruct (ma_max depths)];
    unfold trace, result; simpl; (split; [done|]); intros msg Hin;
    repeat (apply elem_of_cons in Hin as [?|Hin]; [done|]);
    by apply elem_of_nil in Hin.
Qed.

(** C5. When the key ['max depth'] is absent and the rest of the metadata
    loads, the metadata block does not fail: it logs the warning, sets the
    scale mode to "datamax" whatever mode the arguments asked for, and
    goes on; the scale block then neither logs an error nor returns. *)
Theorem C5_missing_max_depth_forces_datamax (args : Args F)
    (meta : gmap string (jvalue F)) lat lon n m lo hi :
  getitem meta "lat_list" ≫= np_array = mret lat →
  getitem meta "lon_list" ≫= np_array = mret lon →
  getitem meta "nx" ≫= py_int = mret n →
  getitem meta "ny" ≫= py_int = mret m →
  np_min lat = mret lo → np_max lat = mret hi →
  meta !! "max depth" = None →
  ∃ args' md,
    load_metadata args meta =
      ([Log WARNING MsgNoMaxDepth; Log INFO (MsgMetadata n m lo hi)],
       Val (args', md)) ∧
    scale_mode args' = "datamax" ∧ meta_max md = None ∧
    ∀ depths,
      result (resolve_scale args' md depths) ≠ Stop Returned ∧
      ∀ msg, Log ERROR msg ∉ trace (resolve_scale args' md depths).
Proof.
  intros Hlat Hlon Hn Hm Hlo Hhi Hkey.
  exists (set_scale_mode args "datamax"), (Metadata lat lon n m None).
  split; [by apply load_metadata_fallback|].
  repeat split; try done; by apply resolve_scale_datamax_runs.
Qed.

Lemma load_metadata_ignores_max_depth args (meta : gmap string (jvalue F)) :
  load_metadata args (delete "max_depth" meta) = load_metadata args meta.
Proof.
  unfold load_metadata, getitem. by rewrite !lookup_delete_ne.
Qed.

(** C9. The key consulted is ['max depth']; ['max_depth'] is never read.
    A metadata mapping with ['max_depth'] and without ['max depth'] is
    treated exactly as the same mapping with ['max_depth'] removed, in the
    metadata block and over the whole run; and when the rest of it loads,
    the block warns and forces the scale mode to "datamax". *)
Theorem C9_max_depth_key_spelling (args : Args F)
    (meta : gmap string (jvalue F)) v lat lon n m lo hi :
  meta !! "max_depth" = Some v →
  meta !! "max depth" = None →
  getitem meta "lat_list" ≫= np_array = mret lat →
  getitem meta "lon_list" ≫= np_array = mret lon →
  getitem meta "nx" ≫= py_int = mret n →
  getitem meta "ny" ≫= py_int = mret m →
  np_min lat = mret lo → np_max lat = mret hi →
  load_metadata args meta = load_metadata args (delete "max_depth" meta) ∧
  load_metadata args meta =
    ([Log WARNING MsgNoMaxDepth; Log INFO (MsgMetadata n m lo hi)],
     Val (set_scale_mode args "datamax", Metadata lat lon n m None)) ∧
  scale_mode (set_scale_mode args "datamax") = "datamax" ∧
  ∀ (w : world F) argv,
    main (without_key "max_depth" w) argv = main w argv.
Proof.
  intros Hv Hkey Hlat Hlon Hn Hm Hlo Hhi. repeat split.
  - by rewrite load_metadata_ignores_max_depth.
  - by apply load_metadata_fallback.
  - intros w argv. unfold main.
    destruct (parse_arguments argv) as [t [a|s]]; [|done]. simpl.
    unfold run, without_key. simpl.
    destruct (json_load w (meta_file a)) as [meta'|]; [|done]. simpl.
    by rewrite load_metadata_ignores_max_depth.
Qed.

(** ** The colour scale *)

Lemma zip_fmap_diag {A B} (g : A → B) (l : list A) :
  zip l (g <$> l) = (λ x, (x, g x)) <$> l.
Proof. induction l as [|x l IH]; simpl; [done|]. by f_equal. Qed.

Lemma concat_fmap_fmap {A B} (g : A → B) (rows : list (list A)) :
  concat (fmap (M:=list) g <$> rows) = g <$> concat rows.
Proof.
  induction rows as [|row rows IH]; [done|].
  rewrite fmap_cons. simpl concat. by rewrite fmap_app, IH.
Qed.

(** The cells of a grid masked by [masked_equal]: every depth with the
    outcome of its comparison. *)
Lemma cells_masked_equal (rows : list (list F)) (v : F) :
  cells (masked_equal rows v) = (λ x, (x, feqb x v)) <$> concat rows.
Proof.
  unfold cells, masked_equal. simpl.
  by rewrite concat_fmap_fmap, zip_fmap_diag.
Qed.

(** A flipped grid is the masked grid of the reversed rows. *)
Lemma flipud_masked_equal (rows : list (list F)) (v : F) :
  flipud (masked_equal rows v) = masked_equal (reverse rows) v.
Proof. unfold flipud, masked_equal. simpl. by rewrite fmap_reverse. Qed.

(** Whatever [build_grid] hands on is a grid masked at -1.0. *)
Lemma build_grid_masked (md : metadata F) depths_flat (t : list (event F)) g :
  build_grid md depths_flat = (t, Val g) →
  ∃ rows, g = masked_equal rows fminus_one.
Proof.
  unfold build_grid. intros H. case_bool_decide; [done|].
  apply bind_val_inv in H as (? & rows & ? & _ & H & _).
  apply bind_val_inv in H as (? & a & ? & _ & H & _).
  apply bind_val_inv in H as (? & b & ? & _ & H & _).
  destruct (negb _); unfold mret, M_ret in H; simpl in H; simplify_eq.
  - eexists. apply flipud_masked_equal.
  - by eexists.
Qed.

Lemma unmasked_masked_equal (rows : list (list F)) (v : F) :
  unmasked (masked_equal rows v)
  = filter (λ x, feqb x v = false) (concat rows).
Proof.
  unfold unmasked. rewrite cells_masked_equal.
  induction (concat rows) as [|x l IH]; [done|].
  rewrite fmap_cons, !filter_cons. simpl.
  destruct (feqb x v); simpl; [done|]. by f_equal.
Qed.

Lemma mask_all_masked_equal (rows : list (list F)) (v : F) :
  mask_all (masked_equal rows v) = true ↔
  concat rows ≠ [] ∧ Forall (λ x, feqb x v = true) (concat rows).
Proof.
  unfold mask_all. rewrite cells_masked_equal.
  rewrite andb_true_iff, existsb_exists, forallb_forall. split.
  - intros [(c & Hin & _) Hall]. split.
    + intros Hnil. by rewrite Hnil in Hin.
    + apply Forall_forall. intros x Hx.
      apply (Hall (x, feqb x v)), list_elem_of_In, list_elem_of_fmap. eauto.
  - intros [Hne Hall]. rewrite Forall_forall in Hall. split.
    + destruct (concat rows) as [|x l]; [done|].
      exists (x, feqb x v). split; [by left|].
      apply Hall. by left.
    + intros c Hc. apply list_elem_of_In, list_elem_of_fmap in Hc as (x & -> & Hx).
      by apply Hall.
Qed.

Section Maximum.
Context `{!FloatLaws F}.

Lemma foldl_fmaximum_elem (x : F) (l : list F) :
  foldl fmaximum x l ∈ x :: l.
Proof.
  revert x. induction l as [|y l IH]; intros x; simpl; [by left|].
  specialize (IH (fmaximum x y)).
  apply elem_of_cons in IH as [->|IH].
  - destruct (fmaximum_cases x y) as [->| ->]; [by left|by right; left].
  - by do 2 right.
Qed.

Lemma foldl_fmaximum_upper (x : F) (l : list F) :
  Forall (λ y, fleb y y = true) (x :: l) →
  ∀ y, y ∈ x :: l → fleb y (foldl fmaximum x l) = true.
Proof.
  revert x. induction l as [|a l IH]; intros x Hnum y Hy; simpl.
  - apply list_elem_of_singleton in Hy as ->. by apply Forall_inv in Hnum.
  - pose proof (Forall_inv Hnum) as Hx.
    pose proof (Forall_inv (Forall_inv_tail Hnum)) as Ha.
    assert (Forall (λ y, fleb y y = true) (fmaximum x a :: l)) as Hnum'.
    { constructor; [|by do 2 apply Forall_inv_tail in Hnum].
      by destruct (fmaximum_cases x a) as [->| ->]. }
    assert (fleb (fmaximum x a) (foldl fmaximum (fmaximum x a) l) = true) as Htop.
    { apply IH; [done|by left]. }
    apply elem_of_cons in Hy as [->|Hy]; [|apply elem_of_cons in Hy as [->|Hy]].
    + eapply fleb_trans; [|exact Htop]. by apply fmaximum_ge_l.
    + eapply fleb_trans; [|exact Htop]. by apply fmaximum_ge_r.
    + apply IH; [done|by right].
Qed.

(** [ma_max] on a grid with an unmasked cell, all unmasked cells being
    numbers: an unmasked cell that is at least every unmasked cell. *)
Lemma ma_max_greatest (rows : list (list F)) (v : F) :
  Exists (λ x, feqb x v = false) (concat rows) →
  Forall (λ x, feqb x v = false → fleb x x = true) (concat rows) →
  ∃ top, ma_max (masked_equal rows v) = Some top ∧
    top ∈ concat rows ∧ feqb top v = false ∧
    ∀ x, x ∈ concat rows → feqb x v = false → fleb x top = true.
Proof.
  intros Hex Hnum. unfold ma_max. rewrite unmasked_masked_equal.
  destruct (filter _ (concat rows)) as [|x l] eqn:Hf.
  - apply Exists_exists in Hex as (x & Hx & Hxv).
    assert (x ∈ filter (λ x, feqb x v = false) (concat rows)) as Hin
      by by apply list_elem_of_filter.
    rewrite Hf in Hin. by apply elem_of_nil in Hin.
  - exists (foldl fmaximum x l).
    assert (∀ y, y ∈ x :: l ↔ feqb y v = false ∧ y ∈ concat rows) as Hmem.
    { intros y. rewrite <- Hf.
      apply (list_elem_of_filter (λ x, feqb x v = false)). }
    pose proof (foldl_fmaximum_elem x l) as Htop. apply Hmem in Htop as [??].
    repeat split; try done.
    intros y Hy Hyv. apply foldl_fmaximum_upper; [|by apply Hmem].
    apply Forall_forall. intros z Hz. apply Hmem in Hz as [Hzv Hz].
    rewrite Forall_forall in Hnum. by apply Hnum.
Qed.

End Maximum.

(** ** The city filter *)

Lemma plot_city_spec lon_min lon_max lat_min lat_max n (rec : place F) :
  plot_city lon_min lon_max lat_min lat_max n rec =
    if plotted lon_min lon_max lat_min lat_max rec
    then (city_events rec, Val (S n))
    else ([], Val n).
Proof.
  unfold plot_city, plotted.
  destruct (String.eqb (NAME rec) "Oakland"); simpl; [done|].
  destruct (major (POP_MAX rec)); simpl; [|done].
  by destruct (in_box _ _ _ _ _ _).
Qed.

Lemma plot_cities_spec lon_min lon_max lat_min lat_max n (recs : list (place F)) :
  plot_cities lon_min lon_max lat_min lat_max n recs =
    (concat ((λ rec, if plotted lon_min lon_max lat_min lat_max rec
                     then city_events rec else []) <$> recs),
     Val (n + length (filter (λ rec, plotted lon_min lon_max lat_min lat_max rec = true)
                             recs))%nat).
Proof.
  revert n. induction recs as [|rec recs IH]; intros n; simpl.
  - unfold mret, M_ret. do 2 f_equal. lia.
  - rewrite plot_city_spec, filter_cons.
    destruct (plotted lon_min lon_max lat_min lat_max rec) eqn:Hp; simpl;
      rewrite IH; simpl; do 2 f_equal; lia.
Qed.

Lemma major_ge (p : Z) : 500000 ≤ p → major (Some p) = true.
Proof.
  intros Hp. unfold major. apply andb_true_iff. split.
  - apply negb_true_iff, Z.eqb_neq. lia.
  - by apply Z.leb_le.
Qed.

(** C8. In the loop over the populated places, a record named "Oakland"
    draws nothing and leaves the counter as it is, whatever its population
    and position; a record with another name, a population of at least
    500000 and a point inside the box, edges included, draws exactly one
    marker at the point and one label with its name, offset by 0.1 in
    both coordinates, and counts once; the loop draws each record's events
    in the order of the table, nothing else, and no label ever reads
    "Oakland". *)
Theorem C8_city_filter (lon_min lon_max lat_min lat_max : F) (n : nat)
    (rec : place F) (recs : list (place F)) :
  (NAME rec = "Oakland" →
     plot_city lon_min lon_max lat_min lat_max n rec = ([], Val n)) ∧
  (∀ p, NAME rec ≠ "Oakland" → POP_MAX rec = Some p → 500000 ≤ p →
     fleb lon_min (geometry_x rec) = true →
     fleb (geometry_x rec) lon_max = true →
     fleb lat_min (geometry_y rec) = true →
     fleb (geometry_y rec) lat_max = true →
     plot_city lon_min lon_max lat_min lat_max n rec =
       ([Render (PlotMarker (geometry_x rec) (geometry_y rec));
         Render (Text (fadd (geometry_x rec) ftenth)
                      (fadd (geometry_y rec) ftenth) (NAME rec))],
        Val (S n))) ∧
  trace (plot_cities lon_min lon_max lat_min lat_max n recs) =
    concat ((λ rec, if plotted lon_min lon_max lat_min lat_max rec
                    then city_events rec else []) <$> recs) ∧
  (∀ lon lat,
     Render (Text lon lat "Oakland")
       ∉ trace (plot_cities lon_min lon_max lat_min lat_max n recs)).
Proof.
  repeat split.
  - intros Hname. rewrite plot_city_spec. unfold plotted. by rewrite Hname.
  - intros p Hname Hpop Hp H1 H2 H3 H4. rewrite plot_city_spec.
    unfold plotted, in_box. rewrite Hpop, major_ge, H1, H2, H3, H4 by done.
    apply String.eqb_neq in Hname. by rewrite Hname.
  - by rewrite plot_cities_spec.
  - intros lon lat. rewrite plot_cities_spec. unfold trace. simpl.
    intros Hin. apply list_elem_of_In, in_concat in Hin as (evs & Hevs & Hin).
    apply list_elem_of_In in Hevs, Hin.
    apply list_elem_of_fmap in Hevs as (r & -> & _).
    destruct (plotted lon_min lon_max lat_min lat_max r) eqn:Hp;
      [|by apply elem_of_nil in Hin].
    unfold city_events in Hin.
    apply elem_of_cons in Hin as [Hin|Hin]; [done|].
    apply list_elem_of_singleton in Hin. injection Hin as _ _ Hname.
    unfold plotted in Hp. by rewrite <- Hname in Hp.
Qed.

(** ** Rendering *)

Lemma draw_ok (w : world F) (args : Args F) (md : metadata F) depths vmax
    lon_min lon_max lat_min lat_max :
  np_min (lon_list md) = mret lon_min → np_max (lon_list md) = mret lon_max →
  np_min (lat_list md) = mret lat_min → np_max (lat_list md) = mret lat_max →
  draw w args md depths vmax =
    (draw_events w args depths vmax lon_min lon_max lat_min lat_max, Val ()).
Proof.
  intros H1 H2 H3 H4. unfold draw, draw_events.
  rewrite plot_cities_spec.
  unfold render, logger, emit. simpl.
  rewrite H1, bind_mret, H2, bind_mret, H3, bind_mret, H4, bind_mret.
  rewrite plot_cities_spec. simpl.
  destruct (roads_raise w), (savefig_raises w); simpl;
    by rewrite <- ?app_assoc.
Qed.

(** With the bounds of the box at hand, [draw] hands the grid to [imshow]
    with [vmin = 0] and the resolved [vmax]. *)
Lemma draw_imshow (w : world F) (args : Args F) (md : metadata F) depths vmax
    lon_min lon_max lat_min lat_max :
  np_min (lon_list md) = mret lon_min → np_max (lon_list md) = mret lon_max →
  np_min (lat_list md) = mret lat_min → np_max (lat_list md) = mret lat_max →
  Render (Imshow depths lon_min lon_max lat_min lat_max
                 (cmap args) (alpha args) 0 vmax)
    ∈ trace (draw w args md depths vmax).
Proof.
  intros H1 H2 H3 H4. rewrite (draw_ok _ _ _ _ _ _ _ _ _ H1 H2 H3 H4).
  unfold trace, draw_events. simpl.
  do 9 right. apply elem_of_app. right. right. by left.
Qed.

Lemma quiet_resolve_scale (args : Args F) md depths : quiet (resolve_scale args md depths).
Proof. unfold resolve_scale. solve_quiet. Qed.

(** A run whose blocks succeed up to the scale block and which stops
    there: the trace is that of the blocks, and nothing is drawn. *)
Lemma run_stops_at_scale (w : world F) args meta (t1 : list (event F)) args' md
    data depths_flat (t2 : list (event F)) depths (t3 : list (event F)) s :
  json_load w (meta_file args) = Some meta →
  load_metadata args meta = (t1, Val (args', md)) →
  loadtxt w (data_file args') = Some data →
  extract_depths data = mret depths_flat →
  build_grid md depths_flat = (t2, Val depths) →
  resolve_scale args' md depths = (t3, Stop s) →
  run w args = (t1 ++ t2 ++ t3, Stop s) ∧
  Forall (λ e, is_render e = false) (t1 ++ t2 ++ t3).
Proof.
  intros Hmeta Hload Hdata Hflat Hgrid Hscale. split.
  - unfold run. rewrite Hmeta. simpl or_raise. rewrite bind_mret.
    rewrite Hload. simpl. rewrite Hdata. simpl. rewrite Hflat. simpl.
    rewrite Hgrid. simpl. by rewrite Hscale.
  - pose proof (quiet_load_metadata args meta) as Q1.
    pose proof (quiet_build_grid md depths_flat) as Q2.
    pose proof (quiet_resolve_scale args' md depths) as Q3.
    unfold quiet in *. rewrite Hload in Q1. rewrite Hgrid in Q2.
    rewrite Hscale in Q3. by repeat apply Forall_app_2.
Qed.

(** ** Scale resolution *)

Lemma resolve_scale_invalid (args : Args F) (md : metadata F) depths :
  scale_mode args ∉ choices →
  resolve_scale args md depths = ([Log ERROR MsgInvalidMode], Stop Returned).
Proof.
  intros Hmode. unfold resolve_scale, choices in *.
  destruct (String.eqb_spec (scale_mode args) "metadata") as [E|_].
  { destruct Hmode. rewrite E. by left. }
  destruct (String.eqb_spec (scale_mode args) "datamax") as [E|_].
  { destruct Hmode. rewrite E. right. by left. }
  destruct (String.eqb_spec (scale_mode args) "user") as [E|_].
  { destruct Hmode. rewrite E. do 2 right. by left. }
  done.
Qed.

Lemma resolve_scale_user_missing (args : Args F) (md : metadata F) depths :
  scale_mode args = "user" → user_max args = None →
  resolve_scale args md depths = ([Log ERROR MsgNeedUserMax], Stop Returned).
Proof. intros Hmode Hmax. unfold resolve_scale. by rewrite Hmode, Hmax. Qed.

Section Scale.
Context `{!FloatLaws F}.

(** C4. The scale block is a case split on the effective scale mode, on a
    grid masked at -1.0.  Mode "metadata" with a max depth yields that
    depth.  Mode "datamax" yields, when the grid has cells and all are
    masked, 0.0 after a warning; when some cell is unmasked (the unmasked
    cells being numbers), an unmasked cell that is at least every unmasked
    cell.  Mode "user" with a user maximum yields it.  Any other mode logs
    an error and returns, and the run stops there with nothing drawn.  In
    each case that yields a value the lower bound logged, and the one
    handed to [imshow] with the value, is 0. *)
Theorem C4_scale_resolution (args : Args F) (md : metadata F)
    (rows : list (list F)) :
  let depths := masked_equal rows fminus_one in
  (∀ m, scale_mode args = "metadata" → meta_max md = Some m →
     resolve_scale args md depths = ([Log INFO (MsgScale 0 m)], Val m)) ∧
  (scale_mode args = "datamax" → concat rows ≠ [] →
     Forall (λ x, feqb x fminus_one = true) (concat rows) →
     resolve_scale args md depths =
       ([Log WARNING MsgAllMissing; Log INFO (MsgScale 0 fzero)], Val fzero)) ∧
  (scale_mode args = "datamax" →
     Exists (λ x, feqb x fminus_one = false) (concat rows) →
     Forall (λ x, feqb x fminus_one = false → fleb x x = true) (concat rows) →
     ∃ vmax,
       resolve_scale args md depths = ([Log INFO (MsgScale 0 vmax)], Val vmax) ∧
       vmax ∈ concat rows ∧ feqb vmax fminus_one = false ∧
       ∀ x, x ∈ concat rows → feqb x fminus_one = false → fleb x vmax = true) ∧
  (∀ u, scale_mode args = "user" → user_max args = Some u →
     resolve_scale args md depths = ([Log INFO (MsgScale 0 u)], Val u)) ∧
  (scale_mode args ∉ choices →
     resolve_scale args md depths = ([Log ERROR MsgInvalidMode], Stop Returned) ∧
     ∀ (w : world F) args0 meta (t1 : list (event F)) data depths_flat
       (t2 : list (event F)),
       json_load w (meta_file args0) = Some meta →
       load_metadata args0 meta = (t1, Val (args, md)) →
       loadtxt w (data_file args) = Some data →
       extract_depths data = mret depths_flat →
       build_grid md depths_flat = (t2, Val depths) →
       run w args0 = (t1 ++ t2 ++ [Log ERROR MsgInvalidMode], Stop Returned) ∧
       Forall (λ e, is_render e = false)
              (t1 ++ t2 ++ [Log ERROR MsgInvalidMode])) ∧
  (∀ (w : world F) vmax lon_min lon_max lat_min lat_max,
     np_min (lon_list md) = mret lon_min → np_max (lon_list md) = mret lon_max →
     np_min (lat_list md) = mret lat_min → np_max (lat_list md) = mret lat_max →
     Render (Imshow depths lon_min lon_max lat_min lat_max
                    (cmap args) (alpha args) 0 vmax)
       ∈ trace (draw w args md depths vmax)).
Proof.
  intros depths. repeat split.
  - intros m Hmode Hmax. unfold resolve_scale. by rewrite Hmode, Hmax.
  - intros Hmode Hne Hall. rewrite resolve_scale_datamax by done.
    assert (mask_all depths = true) as ->; [|done].
    by apply mask_all_masked_equal.
  - intros Hmode Hex Hnum.
    destruct (ma_max_greatest rows fminus_one Hex Hnum)
      as (top & Hmax & Hin & Htop & Hub).
    exists top. repeat split; try done.
    rewrite resolve_scale_datamax by done.
    assert (mask_all depths = false) as ->.
    { apply not_true_is_false. intros Hall.
      apply mask_all_masked_equal in Hall as [_ Hall].
      rewrite Forall_forall in Hall. specialize (Hall top Hin). congruence. }
    unfold depths. by rewrite Hmax.
  - intros u Hmode Hmax. unfold resolve_scale. by rewrite Hmode, Hmax.
  - by apply resolve_scale_invalid.
  - eapply run_stops_at_scale; eauto. by apply resolve_scale_invalid.
  - eapply run_stops_at_scale; eauto. by apply resolve_scale_invalid.
  - intros w vmax lon_min lon_max lat_min lat_max. apply draw_imshow.
Qed.

End Scale.

(** ** Argument handling *)

Lemma consume_refused (ns : namespace F) o : refused (F:=F) o → consume ns o = None.
Proof.
  destruct o as [[] s]; unfold refused; simpl; try done.
  - by intros ->.
  - intros Hs. by rewrite bool_decide_eq_false_2.
  - by intros ->.
Qed.

Lemma consume_all_refused (ns : namespace F) argv o :
  o ∈ argv → refused (F:=F) o → consume_all ns argv = None.
Proof.
  intros Hin Hbad. revert ns.
  induction argv as [|o' argv IH]; intros ns; [by apply elem_of_nil in Hin|].
  apply elem_of_cons in Hin as [<-|Hin]; simpl.
  - by rewrite consume_refused.
  - destruct (consume ns o'); simpl; [by apply IH|done].
Qed.

Lemma consume_slot f (ns : namespace F) o ns' :
  consume ns o = Some ns' → o.1 ≠ f → slot f ns' = slot f ns.
Proof.
  destruct o as [g s]. simpl. intros Hc Hne.
  destruct g; simpl in Hc;
    try (destruct (float_of_string s); simpl in Hc);
    try case_bool_decide; simplify_eq;
    destruct f; simpl; done.
Qed.

Lemma consume_all_slot f (ns : namespace F) argv ns' :
  consume_all ns argv = Some ns' → f ∉ argv.*1 → slot f ns' = slot f ns.
Proof.
  revert ns. induction argv as [|o argv IH]; intros ns Hc Hf; simpl in *.
  - by simplify_eq.
  - destruct (consume ns o) as [ns1|] eqn:Ho; simpl in Hc; [|done].
    apply not_elem_of_cons in Hf as [Hne Hf].
    rewrite (IH ns1) by done. by eapply consume_slot.
Qed.

Lemma required_slot f (ns : namespace F) :
  f = data_file_flag ∨ f = meta_file_flag ∨ f = output_file_flag →
  slot f ns = None → required ns = None.
Proof.
  unfold required. intros [->|[->| ->]]; simpl; intros ->; simpl; try done;
    destruct (ns_data_file ns); simpl; try done;
    by destruct (ns_meta_file ns).
Qed.

Lemma parse_arguments_missing argv f :
  f = data_file_flag ∨ f = meta_file_flag ∨ f = output_file_flag →
  f ∉ argv.*1 →
  parse_arguments (F:=F) argv = ([ArgparseError], Stop (Exited 2)).
Proof.
  intros Hf Hmiss. unfold parse_arguments.
  destruct (consume_all defaults argv) as [ns|] eqn:Hc; simpl; [|done].
  rewrite (required_slot f ns Hf); [done|].
  rewrite (consume_all_slot f defaults argv ns Hc Hmiss).
  by destruct Hf as [->|[->| ->]].
Qed.

Lemma parse_arguments_refused argv o :
  o ∈ argv → refused (F:=F) o →
  parse_arguments argv = ([ArgparseError], Stop (Exited 2)).
Proof.
  intros Hin Hbad. unfold parse_arguments.
  by rewrite (consume_all_refused defaults argv o).
Qed.

(** C7, as the code has it.  The parser fails, with its message and exit
    status 2 and before anything else happens, when one of the three
    required options is missing or an occurrence is refused (a scale mode
    outside the choices, an unreadable float).  It does not relate
    [--user_max] to [--scale_mode]: that is found by [main], when the
    effective scale mode is "user" and no user maximum was given; the run
    then logs the error and returns with nothing drawn. *)
Theorem C7_configuration_errors (w : world F) (argv : list (flag * string)) :
  (data_file_flag ∉ argv.*1 ∨ meta_file_flag ∉ argv.*1 ∨
   output_file_flag ∉ argv.*1 ∨ (∃ o, o ∈ argv ∧ refused (F:=F) o) →
     main w argv = ([ArgparseError], Stop (Exited 2))) ∧
  (∀ args meta (t1 : list (event F)) args' md data depths_flat
     (t2 : list (event F)) depths,
     parse_arguments argv = mret args →
     json_load w (meta_file args) = Some meta →
     load_metadata args meta = (t1, Val (args', md)) →
     loadtxt w (data_file args') = Some data →
     extract_depths data = mret depths_flat →
     build_grid md depths_flat = (t2, Val depths) →
     scale_mode args' = "user" → user_max args' = None →
     main w argv = (t1 ++ t2 ++ [Log ERROR MsgNeedUserMax], Stop Returned) ∧
     Forall (λ e, is_render e = false)
            (t1 ++ t2 ++ [Log ERROR MsgNeedUserMax])).
Proof.
  split.
  - intros H. unfold main.
    assert (parse_arguments argv = ([ArgparseError], Stop (Exited 2))) as ->;
      [|done].
    destruct H as [H|[H|[H|(o & Hin & Hbad)]]].
    + apply (parse_arguments_missing argv data_file_flag); auto.
    + apply (parse_arguments_missing argv meta_file_flag); auto.
    + apply (parse_arguments_missing argv output_file_flag); auto.
    + by apply (parse_arguments_refused argv o).
  - intros args meta t1 args' md data depths_flat t2 depths
      Hargs Hmeta Hload Hdata Hflat Hgrid Hmode Hmax.
    unfold main. rewrite Hargs, bind_mret.
    eapply run_stops_at_scale; eauto.
    by apply resolve_scale_user_missing.
Qed.

End Properties.

(** * The examples, run and checked *)

(** The scenario runs as the specification says: depths 5, 7, 3, 2, grid
    [[5, 7], [3, 2]], no flip for ascending latitudes. *)
Example ex_extract : extract_depths ex_data = ([], Val ex_flat).
Proof. reflexivity. Qed.

Example ex_grid :
  build_grid (ex_md [34%Q; 35%Q]) ex_flat =
    ([], Val (MaskedArray [[5; 7]; [3; 2]]%Q
                          [[false; false]; [false; false]])).
Proof. reflexivity. Qed.


Lemma C2_reshape_row_major_witness :
  result (build_grid (ex_md [34%Q; 35%Q]) ex_flat)
    = Val (grid_of (ex_md [34%Q; 35%Q]) ex_flat) ∧
  cell (ma_data (grid_of (ex_md [34%Q; 35%Q]) ex_flat)) 1 0 = Some 3%Q.
Proof.
  destruct (C2_reshape_row_major (ex_md [34%Q; 35%Q]) ex_flat
              [34%Q; 35%Q] 34%Q 35%Q)
    as (Hrun & Hrows & Hrow & Hcell & Hmask);
    [simpl; lia | simpl; lia | reflexivity..|].
  split; [exact Hrun|].
  destruct (Hcell 1%nat 0%nat) as [-> _]; [simpl; lia..|]. reflexivity.
Defined.




Lemma C4_scale_resolution_witness :
  resolve_scale (ex_args "metadata" None) (ex_md [34%Q; 35%Q])
      (masked_equal [[5; 7]; [3; -1]]%Q (-1)%Q)
    = ([Log INFO (MsgScale 0 5000%Q)], Val 5000%Q) ∧
  resolve_scale (ex_args "datamax" None) (ex_md [34%Q; 35%Q])
      (masked_equal [[-1; -1]; [-1; -1]]%Q (-1)%Q)
    = ([Log WARNING MsgAllMissing; Log INFO (MsgScale 0 0%Q)], Val 0%Q) ∧
  (∃ vmax,
     resolve_scale (ex_args "datamax" None) (ex_md [34%Q; 35%Q])
         (masked_equal [[5; 7]; [3; -1]]%Q (-1)%Q)
       = ([Log INFO (MsgScale 0 vmax)], Val vmax) ∧
     fleb 7%Q vmax = true) ∧
  resolve_scale (ex_args "user" (Some 12%Q)) (ex_md [34%Q; 35%Q])
      (masked_equal [[5; 7]; [3; -1]]%Q (-1)%Q)
    = ([Log INFO (MsgScale 0 12%Q)], Val 12%Q) ∧
  resolve_scale (ex_args "median" None) (ex_md [34%Q; 35%Q])
      (masked_equal [[5; 7]; [3; -1]]%Q (-1)%Q)
    = ([Log ERROR MsgInvalidMode], Stop Returned).
Proof.
  split; [|split; [|split; [|split]]].
  - pose proof (C4_scale_resolution (ex_args "metadata" None)
                  (ex_md [34%Q; 35%Q]) [[5; 7]; [3; -1]]%Q) as H.
    cbv zeta in H. destruct H as (H & _). by apply H.
  - pose proof (C4_scale_resolution (ex_args "datamax" None)
                  (ex_md [34%Q; 35%Q]) [[-1; -1]; [-1; -1]]%Q) as H.
    cbv zeta in H. destruct H as (_ & H & _).
    apply H; [done..|]. by repeat constructor.
  - pose proof (C4_scale_resolution (ex_args "datamax" None)
                  (ex_md [34%Q; 35%Q]) [[5; 7]; [3; -1]]%Q) as H.
    cbv zeta in H. destruct H as (_ & _ & H & _).
    destruct H as (vmax & Hrun & _ & _ & Hub);
      [done | by constructor | by repeat constructor |].
    exists vmax. split; [exact Hrun|].
    apply Hub; [|done]. simpl. right. by left.
  - pose proof (C4_scale_resolution (ex_args "user" (Some 12%Q))
                  (ex_md [34%Q; 35%Q]) [[5; 7]; [3; -1]]%Q) as H.
    cbv zeta in H. destruct H as (_ & _ & _ & H & _). by apply H.
  - pose proof (C4_scale_resolution (ex_args "median" None)
                  (ex_md [34%Q; 35%Q]) [[5; 7]; [3; -1]]%Q) as H.
    cbv zeta in H. destruct H as (_ & _ & _ & _ & H & _).
    apply H. simpl. compute_done.
Defined.

Lemma C5_missing_max_depth_forces_datamax_witness :
  ∃ args' md,
    load_metadata (ex_args "user" None) (delete "max depth" ex_meta) =
      ([Log WARNING MsgNoMaxDepth; Log INFO (MsgMetadata 2 2 34%Q 35%Q)],
       Val (args', md)) ∧
    scale_mode args' = "datamax".
Proof.
  destruct (C5_missing_max_depth_forces_datamax (ex_args "user" None)
              (delete "max depth" ex_meta)
              (Arr1 [34%Q; 35%Q]) (Arr1 [inject_Z (-120); inject_Z (-118)])
              2 2 34%Q 35%Q)
    as (args' & md & Hrun & Hmode & _); [by vm_compute..|].
  by exists args', md.
Defined.


(** C7, as stated, fails: with [--scale_mode user] and no [--user_max] the
    parser succeeds; and when the metadata file has no ['max depth'] key
    the run then goes through to the end and saves the figure. *)
Lemma C7_parser_accepts_user_mode_without_user_max :
  parse_arguments (F:=Q) (ex_argv ++ [(scale_mode_flag, "user")])
    = ([], Val (ex_args "user" None)) ∧
  result (main (ex_world (delete "max depth" ex_meta) ex_data)
               (ex_argv ++ [(scale_mode_flag, "user")])) = Val () ∧
  existsb is_savefig
    (trace (main (ex_world (delete "max depth" ex_meta) ex_data)
                 (ex_argv ++ [(scale_mode_flag, "user")]))) = true.
Proof. by vm_compute. Qed.

Lemma C7_configuration_errors_witness :
  main (ex_world ex_meta ex_data) [(data_file_flag, "z25.txt")]
    = ([ArgparseError], Stop (Exited 2)) ∧
  main (ex_world ex_meta ex_data)
       (ex_argv ++ [(scale_mode_flag, "median")])
    = ([ArgparseError], Stop (Exited 2)) ∧
  main (ex_world ex_meta ex_data) (ex_argv ++ [(scale_mode_flag, "user")])
    = ([Log INFO (MsgMetadata 2 2 34%Q 35%Q); Log ERROR MsgNeedUserMax],
       Stop Returned).
Proof.
  split; [|split].
  - apply (C7_configuration_errors (ex_world ex_meta ex_data)
             [(data_file_flag, "z25.txt")]).
    right. left. compute_done.
  - apply (C7_configuration_errors (ex_world ex_meta ex_data)
             (ex_argv ++ [(scale_mode_flag, "median")])).
    do 3 right. exists (scale_mode_flag, "median"). split.
    + compute_done.
    + unfold refused. simpl. compute_done.
  - destruct (C7_configuration_errors (ex_world ex_meta ex_data)
                (ex_argv ++ [(scale_mode_flag, "user")])) as [_ Huser].
    destruct (Huser (ex_args "user" None) ex_meta
                [Log INFO (MsgMetadata 2 2 34%Q 35%Q)]
                (ex_args "user" None)
                (Metadata (Arr1 [34%Q; 35%Q])
                          (Arr1 [inject_Z (-120); inject_Z (-118)]) 2 2
                          (Some (inject_Z 5000)))
                ex_data ex_flat []
                (MaskedArray [[5; 7]; [3; 2]]%Q
                             [[false; false]; [false; false]]))
      as [Hrun _]; [by vm_compute..|].
    exact Hrun.
Defined.

Lemma C8_city_filter_witness :
  plot_city (-120)%Q (-118)%Q 34%Q 35%Q 0
            (Place "Oakland" (Some 600000) (-119)%Q 34.5%Q)
    = ([], Val 0%nat) ∧
  plot_city (-120)%Q (-118)%Q 34%Q 35%Q 0
            (Place "Los Angeles" (Some 3900000) (-118)%Q 34%Q)
    = ([Render (PlotMarker (-118)%Q 34%Q);
        Render (Text (fadd (-118)%Q ftenth) (fadd 34%Q ftenth) "Los Angeles")],
       Val 1%nat).
Proof.
  split.
  - destruct (C8_city_filter (-120)%Q (-118)%Q 34%Q 35%Q 0
                (Place "Oakland" (Some 600000) (-119)%Q 34.5%Q) [])
      as (Hskip & _).
    by apply Hskip.
  - destruct (C8_city_filter (-120)%Q (-118)%Q 34%Q 35%Q 0
                (Place "Los Angeles" (Some 3900000) (-118)%Q 34%Q) [])
      as (_ & Hplot & _).
    by apply (Hplot 3900000).
Defined.

Lemma C9_max_depth_key_spelling_witness :
  load_metadata (ex_args "metadata" None) ex_meta_underscore =
    ([Log WARNING MsgNoMaxDepth; Log INFO (MsgMetadata 2 2 34%Q 35%Q)],
     Val (ex_args "datamax" None,
          Metadata (Arr1 [34%Q; 35%Q])
                   (Arr1 [inject_Z (-120); inject_Z (-118)]) 2 2 None)).
Proof.
  destruct (C9_max_depth_key_spelling (ex_args "metadata" None)
              ex_meta_underscore (JNum (JInt 5000))
              (Arr1 [34%Q; 35%Q]) (Arr1 [inject_Z (-120); inject_Z (-118)])
              2 2 34%Q 35%Q)
    as (_ & Hrun & _); [by vm_compute..|].
  exact Hrun.
Defined.

(** * Further properties of the script *)

Section Further.
Context {F : Type} `{!FloatOps F}.

(** ** The argument parser, completely *)



Lemma consume_field_other f (ns : namespace F) o ns' :
  consume ns o = Some ns' → o.1 ≠ f → ns_field f ns' = ns_field f ns.
Proof.
  destruct o as [g s]. simpl. intros Hc Hne.
  destruct g; simpl in Hc;
    try (destruct (float_of_string s); simpl in Hc);
    try case_bool_decide; simplify_eq;
    destruct f; simpl; done.
Qed.

Lemma consume_field_same f s (ns : namespace F) ns' :
  consume ns (f, s) = Some ns' → reading f s = Some (ns_field f ns').
Proof.
  intros Hc.
  destruct f; simpl in Hc;
    try (destruct (float_of_string s) eqn:E; simpl in Hc);
    try case_bool_decide; simplify_eq; simpl; by rewrite ?E.
Qed.

Lemma consume_all_field_other f (ns : namespace F) argv ns' :
  consume_all ns argv = Some ns' → f ∉ argv.*1 →
  ns_field f ns' = ns_field f ns.
Proof.
  revert ns. induction argv as [|o argv IH]; intros ns Hc Hf; simpl in *.
  - by simplify_eq.
  - destruct (consume ns o) as [ns1|] eqn:Ho; simpl in Hc; [|done].
    apply not_elem_of_cons in Hf as [Hne Hf].
    rewrite (IH ns1) by done. by eapply consume_field_other.
Qed.

Lemma consume_all_app (ns : namespace F) argv argv' :
  consume_all ns (argv ++ argv') =
    consume_all ns argv ≫= λ ns', consume_all ns' argv'.
Proof.
  revert ns. induction argv as [|o argv IH]; intros ns; simpl; [done|].
  destruct (consume ns o) as [ns1|]; simpl; [apply IH|done].
Qed.

Lemma consume_all_mid_inv (ns : namespace F) pre o post ns' :
  consume_all ns (pre ++ o :: post) = Some ns' →
  ∃ ns0 ns1, consume_all ns pre = Some ns0 ∧ consume ns0 o = Some ns1 ∧
             consume_all ns1 post = Some ns'.
Proof.
  rewrite consume_all_app. intros H.
  destruct (consume_all ns pre) as [ns0|]; [|done].
  change (consume ns0 o ≫= (λ ns1, consume_all ns1 post) = Some ns') in H.
  destruct (consume ns0 o) as [ns1|] eqn:Ho; [|done].
  exists ns0, ns1. by repeat split.
Qed.

Lemma required_field f (ns : namespace F) args :
  required ns = Some args → args_field f args = ns_field f ns.
Proof.
  unfold required. intros H.
  destruct (ns_data_file ns) eqn:E1; simpl in H; [|done].
  destruct (ns_meta_file ns) eqn:E2; simpl in H; [|done].
  destruct (ns_output_file ns) eqn:E3; simpl in H; [|done].
  simplify_eq. destruct f; simpl; congruence.
Qed.

(** What [parse_arguments] does, read off its result. *)
Lemma parse_arguments_inv argv (t : list (event F)) args :
  parse_arguments argv = (t, Val args) →
  t = [] ∧ ∃ ns, consume_all defaults argv = Some ns ∧ required ns = Some args.
Proof.
  unfold parse_arguments.
  destruct (consume_all defaults argv) as [ns|] eqn:Hc; simpl; [|done].
  destruct (required ns) as [a|] eqn:Hr; simpl; [|done].
  intros [= <- <-]. eauto.
Qed.


(** The scale mode in the namespace stays among the choices. *)
Lemma consume_scale_mode (ns : namespace F) o ns' :
  consume ns o = Some ns' →
  ns_scale_mode ns ∈ choices → ns_scale_mode ns' ∈ choices.
Proof.
  destruct o as [g s]. intros Hc Hin.
  destruct g; simpl in Hc;
    try (destruct (float_of_string s); simpl in Hc);
    try case_bool_decide; simplify_eq; simpl; done.
Qed.

Lemma consume_all_scale_mode (ns : namespace F) argv ns' :
  consume_all ns argv = Some ns' →
  ns_scale_mode ns ∈ choices → ns_scale_mode ns' ∈ choices.
Proof.
  revert ns. induction argv as [|o argv IH]; intros ns Hc Hin; simpl in Hc.
  - by simplify_eq.
  - destruct (consume ns o) as [ns1|] eqn:Ho; simpl in Hc; [|done].
    apply (IH ns1 Hc). by eapply consume_scale_mode.
Qed.

Lemma parse_arguments_scale_mode argv (t : list (event F)) args :
  parse_arguments argv = (t, Val args) → scale_mode args ∈ choices.
Proof.
  intros Hp. apply parse_arguments_inv in Hp as (_ & ns & Hc & Hr).
  pose proof (required_field scale_mode_flag ns args Hr) as Hf.
  simpl in Hf. injection Hf as ->.
  apply (consume_all_scale_mode defaults argv ns Hc). by left.
Qed.



(** X2. The value of an option comes from its last occurrence: when the
    command line parses and the occurrence [(f, s)] is followed by no
    other occurrence of [f], the parsed arguments hold for [f] what [s]
    reads as. *)
Theorem X2_last_occurrence_wins (pre post : list (flag * string)) f s
    (args : Args F) :
  parse_arguments (pre ++ (f, s) :: post) = ([], Val args) →
  f ∉ post.*1 →
  reading f s = Some (args_field f args).
Proof.
  intros Hp Hout. apply parse_arguments_inv in Hp as (_ & ns & Hc & Hr).
  rewrite (required_field f ns args Hr).
  apply consume_all_mid_inv in Hc as (ns0 & ns1 & _ & Ho & Hc).
  rewrite (consume_all_field_other f ns1 post ns Hc Hout).
  by eapply consume_field_same.
Qed.

(** X3. An option that does not occur keeps its default: "viridis" for
    the colormap, 1.0 for alpha, "metadata" for the scale mode, no user
    maximum, the fixed title. *)
Theorem X3_omitted_options_keep_defaults (argv : list (flag * string)) f
    (args : Args F) :
  parse_arguments argv = ([], Val args) →
  f ∉ argv.*1 →
  args_field f args = ns_field f defaults ∧
  match f with
  | cmap_flag => cmap args = "viridis"
  | alpha_flag => alpha args = fone
  | scale_mode_flag => scale_mode args = "metadata"
  | user_max_flag => user_max args = None
  | title_flag => title args = "Z2.5 depth data for California CVMs."
  | _ => False
  end.
Proof.
  intros Hp Hout. apply parse_arguments_inv in Hp as (_ & ns & Hc & Hr).
  assert (args_field f args = ns_field f defaults) as Hf.
  { rewrite (required_field f ns args Hr).
    by apply (consume_all_field_other f defaults argv). }
  split; [done|]. destruct f; simpl in Hf; by simplify_eq.
Qed.

(** ** The metadata block, its failures and its invariant *)

Lemma np_array_cases (v : jvalue F) :
  (∃ a, np_array v = mret a) ∨ np_array v = raise ConversionError.
Proof.
  destruct v as [n|l]; simpl.
  - destruct (float_of_jnum n); simpl; eauto.
  - destruct (mapM float_of_jnum l); simpl; eauto.
Qed.

Lemma py_int_cases (v : jvalue F) :
  (∃ n, py_int v = mret n) ∨ py_int v = raise ConversionError.
Proof.
  destruct v as [[n|x]|l]; simpl; eauto.
  destruct (int_of_float x); simpl; eauto.
Qed.

Lemma py_float_cases (v : jvalue F) :
  (∃ x, py_float v = mret x) ∨ py_float v = raise ConversionError.
Proof.
  destruct v as [n|l]; simpl; eauto.
  destruct (float_of_jnum n); simpl; eauto.
Qed.

Lemma np_reduce_cases op (a : ndarray F) :
  (∃ x, np_reduce op a = mret x) ∨ np_reduce op a = raise ValueError.
Proof. destruct a as [x|[|x l]]; simpl; eauto. Qed.

(** Reading one key and converting it: a value, or an exception with no
    event. *)
Lemma read_key_cases {A} (conv : jvalue F → M F A)
    (meta : gmap string (jvalue F)) key :
  (∀ v, (∃ a, conv v = mret a) ∨ conv v = raise ConversionError) →
  (∃ a, getitem meta key ≫= conv = mret a) ∨
  (∃ e, getitem meta key ≫= conv = raise e).
Proof.
  intros Hconv. unfold getitem. destruct (meta !! key) as [v|].
  - rewrite (or_raise_Some _ _ v), bind_mret by done.
    destruct (Hconv v) as [[a Ha]|Hr]; [left|right]; eauto.
  - right. by exists (KeyError key).
Qed.

Lemma bind_raise {A B} (e : exn) (f : A → M F B) : raise e ≫= f = raise e.
Proof. done. Qed.

(** A failure of the metadata block is the failure of the run. *)
Lemma run_metadata_stop (w : world F) (args : Args F) meta
    (t : list (event F)) s :
  json_load w (meta_file args) = Some meta →
  load_metadata args meta = (t, Stop s) →
  run w args = (t, Stop s).
Proof.
  intros Hmeta Hload. unfold run. rewrite Hmeta. simpl or_raise.
  rewrite bind_mret. by rewrite Hload.
Qed.

(** X4. A metadata file that lacks one of the keys [lat_list],
    [lon_list], [nx], [ny] makes the run raise before anything is logged,
    read from the data file or drawn; when the missing key is [lat_list],
    the first one read, the exception is the KeyError for it. *)
Theorem X4_missing_mandatory_key (w : world F) (args : Args F)
    (meta : gmap string (jvalue F)) (key : string) :
  json_load w (meta_file args) = Some meta →
  key ∈ ["lat_list"; "lon_list"; "nx"; "ny"] →
  meta !! key = None →
  (∃ e, run w args = ([], Stop (Raised e))) ∧
  (key = "lat_list" → run w args = ([], Stop (Raised (KeyError "lat_list")))).
Proof.
  intros Hmeta Hkey Hnone.
  assert (getitem meta key = raise (F:=F) (KeyError key)) as Hget.
  { unfold getitem. by rewrite Hnone. }
  split.
  - assert (∃ e, load_metadata args meta = ([], Stop (Raised e))) as [e He];
      [|exists e; by eapply run_metadata_stop].
    unfold load_metadata.
    destruct (read_key_cases np_array meta "lat_list" np_array_cases)
      as [[lat Hlat]|[e ->]]; [rewrite Hlat, bind_mret|by exists e].
    destruct (read_key_cases np_array meta "lon_list" np_array_cases)
      as [[lon Hlon]|[e ->]]; [rewrite Hlon, bind_mret|by exists e].
    destruct (read_key_cases py_int meta "nx" py_int_cases)
      as [[n Hn]|[e ->]]; [rewrite Hn, bind_mret|by exists e].
    destruct (read_key_cases py_int meta "ny" py_int_cases)
      as [[m Hm]|[e ->]]; [|by exists e].
    exfalso.
    assert (∀ {A} (conv : jvalue F → M F A) (a : A),
              getitem meta key ≫= conv ≠ mret a) as Hno.
    { intros A conv a. by rewrite Hget. }
    repeat (apply elem_of_cons in Hkey as [->|Hkey];
            [eapply Hno; eassumption|]).
    by apply elem_of_nil in Hkey.
  - intros ->. eapply run_metadata_stop; [done|].
    unfold load_metadata. by rewrite Hget.
Qed.

(** What a successful metadata block returns: the arguments as they
    were and a max depth, or the scale mode forced to "datamax", no max
    depth, and the warning logged. *)
Lemma load_metadata_inv (args : Args F) (meta : gmap string (jvalue F))
    (t : list (event F)) args' md :
  load_metadata args meta = (t, Val (args', md)) →
  (args' = args ∧ is_Some (meta_max md) ∧ is_Some (meta !! "max depth")) ∨
  (args' = set_scale_mode args "datamax" ∧ meta_max md = None ∧
   meta !! "max depth" = None ∧ Log WARNING MsgNoMaxDepth ∈ t).
Proof.
  unfold load_metadata. intros H.
  apply bind_val_inv in H as (? & lat & ? & _ & H & ->).
  apply bind_val_inv in H as (? & lon & ? & _ & H & ->).
  apply bind_val_inv in H as (? & n & ? & _ & H & ->).
  apply bind_val_inv in H as (? & m & ? & _ & H & ->).
  apply bind_val_inv in H as (t1 & [a mm] & ? & Hmax & H & ->).
  apply bind_val_inv in H as (? & lo & ? & _ & H & ->).
  apply bind_val_inv in H as (? & hi & ? & _ & H & ->).
  apply bind_val_inv in H as (? & [] & ? & _ & H & ->).
  unfold mret, M_ret in H. simplify_eq.
  destruct (meta !! "max depth") as [v|].
  - apply bind_val_inv in Hmax as (? & vmax & ? & _ & Hmax & ->).
    unfold mret, M_ret in Hmax. simplify_eq. left. eauto.
  - simpl in Hmax. simplify_eq. right.
    split; [done|]. split; [done|]. split; [done|].
    rewrite !elem_of_app. do 4 right. left. by left.
Qed.

(** ** Events, block by block *)

Lemma all_events_bind_val {A B} (P : event F → Prop) (m : M F A)
    (f : A → M F B) :
  all_events P m →
  (∀ (t : list (event F)) a, m = (t, Val a) → all_events P (f a)) →
  all_events P (m ≫= f).
Proof.
  unfold all_events, trace. intros Hm Hf. destruct m as [t [a|s]]; simpl; [|done].
  specialize (Hf t a eq_refl). destruct (f a) as [t' r]. simpl in *.
  by apply Forall_app_2.
Qed.

Lemma all_events_bind {A B} (P : event F → Prop) (m : M F A) (f : A → M F B) :
  all_events P m → (∀ a, all_events P (f a)) → all_events P (m ≫= f).
Proof. intros Hm Hf. apply all_events_bind_val; [done|]. intros _ a _. apply Hf. Qed.

Lemma all_events_fmap {A B} (P : event F → Prop) (g : A → B) (m : M F A) :
  all_events P m → all_events P (g <$> m).
Proof. unfold all_events, trace. by destruct m as [t [a|s]]. Qed.

Lemma all_events_mret {A} (P : event F → Prop) (a : A) : all_events P (mret a).
Proof. by constructor. Qed.

Lemma all_events_raise {A} (P : event F → Prop) e : all_events P (raise (A:=A) e).
Proof. by constructor. Qed.

Lemma all_events_return {A} (P : event F → Prop) : all_events P (return_ (A:=A)).
Proof. by constructor. Qed.

Lemma all_events_or_raise {A} (P : event F → Prop) e (o : option A) :
  all_events P (or_raise e o).
Proof. destruct o; by constructor. Qed.

Lemma all_events_emit (P : event F → Prop) e : P e → all_events P (emit e).
Proof. intros He. by repeat constructor. Qed.

Lemma all_events_impl {A} (P Q : event F → Prop) (m : M F A) :
  all_events P m → (∀ e, P e → Q e) → all_events Q m.
Proof. unfold all_events. intros H HPQ. by eapply Forall_impl. Qed.

Ltac solve_events :=
  unfold logger, render;
  repeat first
    [ apply all_events_mret | apply all_events_raise | apply all_events_return
    | apply all_events_or_raise | apply all_events_fmap
    | apply all_events_emit; first [reflexivity | discriminate]
    | apply all_events_bind; [|intros ?]
    | match goal with
      | |- all_events _ (match ?x with _ => _ end) => destruct x
      | |- all_events _ (if ?b then _ else _) => destruct b
      | |- all_events _ (let '(_, _) := ?x in _) => destruct x
      end ].

Definition no_guard_error (e : event F) : Prop := is_guard_error e = false.

Lemma no_guard_error_load_metadata (args : Args F) meta :
  all_events no_guard_error (load_metadata args meta).
Proof.
  unfold load_metadata, getitem, np_min, np_max, np_array, py_int, py_float,
    np_reduce, no_guard_error.
  solve_events.
Qed.

Lemma no_guard_error_extract_depths (data : list (list F)) :
  all_events no_guard_error (extract_depths data).
Proof. unfold extract_depths, column, no_guard_error. solve_events. Qed.

Lemma no_guard_error_build_grid (md : metadata F) depths_flat :
  all_events no_guard_error (build_grid md depths_flat).
Proof.
  unfold build_grid, np_reshape, index_first, index_last, no_guard_error.
  solve_events.
Qed.

Lemma no_guard_error_plot_cities lon_min lon_max lat_min lat_max n
    (recs : list (place F)) :
  all_events no_guard_error (plot_cities lon_min lon_max lat_min lat_max n recs).
Proof.
  revert n. induction recs as [|rec recs IH]; intros n; simpl.
  - apply all_events_mret.
  - apply all_events_bind; [|intros ?; apply IH].
    unfold plot_city, no_guard_error. solve_events.
Qed.

Lemma no_guard_error_draw (w : world F) args md depths vmax :
  all_events no_guard_error (draw w args md depths vmax).
Proof.
  unfold draw, np_min, np_max, np_reduce.
  pose proof no_guard_error_plot_cities as Hcities.
  unfold no_guard_error in *.
  repeat first
    [ apply Hcities
    | progress solve_events ].
Qed.

(** The guard errors of a run come from its scale block, run on what the
    metadata block returned. *)
Lemma run_events (P : event F → Prop) (w : world F) (args : Args F) :
  (∀ e, is_guard_error e = false → P e) →
  (∀ meta (t : list (event F)) args' md depths,
     json_load w (meta_file args) = Some meta →
     load_metadata args meta = (t, Val (args', md)) →
     all_events P (resolve_scale args' md depths)) →
  all_events P (run w args).
Proof.
  intros Hother Hscale. unfold run.
  destruct (json_load w (meta_file args)) as [meta|] eqn:Hmeta;
    [|by repeat constructor].
  simpl or_raise. rewrite bind_mret.
  apply all_events_bind_val.
  { eapply all_events_impl; [apply no_guard_error_load_metadata|done]. }
  intros t [args' md] Hload.
  apply all_events_bind; [apply all_events_or_raise|intros data].
  apply all_events_bind.
  { eapply all_events_impl; [apply no_guard_error_extract_depths|done]. }
  intros depths_flat. apply all_events_bind.
  { eapply all_events_impl; [apply no_guard_error_build_grid|done]. }
  intros depths. apply all_events_bind; [by eapply Hscale|].
  intros vmax. eapply all_events_impl; [apply no_guard_error_draw|done].
Qed.

(** X7. The guard of "metadata" mode against a missing max depth (lines
    81-83) never fires: whatever the arguments, the files and the
    environment, no run logs its error, because a metadata block that
    finds no max depth has already switched the mode to "datamax". *)
Theorem X7_metadata_guard_unreachable (w : world F) (args : Args F) :
  Log ERROR MsgNoMetaMax ∉ trace (run w args).
Proof.
  assert (all_events (λ e, e ≠ Log ERROR MsgNoMetaMax) (run w args)) as H.
  { apply run_events.
    - intros e He ->. done.
    - intros meta t args' md depths _ Hload.
      apply load_metadata_inv in Hload
        as [(-> & [x Hx] & _)|(-> & Hnone & _)]; unfold resolve_scale.
      + rewrite Hx. solve_events.
      + simpl. solve_events. }
  intros Hin. unfold all_events in H. rewrite Forall_forall in H.
  by apply (H _ Hin).
Qed.

(** X8. The branch for an invalid scale mode (lines 96-98) cannot be
    reached from the command line: the parser lets through only the three
    choices and the metadata block changes the mode to "datamax" at most,
    so no run of [main] logs that error. *)
Theorem X8_invalid_mode_unreachable (w : world F) (argv : list (flag * string)) :
  Log ERROR MsgInvalidMode ∉ trace (main w argv).
Proof.
  assert (all_events (λ e, e ≠ Log ERROR MsgInvalidMode) (main w argv)) as H.
  { unfold main. apply all_events_bind_val.
    { unfold parse_arguments, sys_exit.
      destruct (consume_all defaults argv ≫= required); solve_events. }
    intros t args Hparse. apply parse_arguments_scale_mode in Hparse.
    apply run_events.
    - intros e He ->. done.
    - intros meta t' args' md depths _ Hload.
      assert (scale_mode args' ∈ choices) as Hmode.
      { apply load_metadata_inv in Hload as [(-> & _)|(-> & _)]; [done|].
        simpl. right. by left. }
      unfold resolve_scale, choices in *.
      repeat (apply elem_of_cons in Hmode as [->|Hmode]);
        [| | |by apply elem_of_nil in Hmode]; simpl; solve_events. }
  intros Hin. unfold all_events in H. rewrite Forall_forall in H.
  by apply (H _ Hin).
Qed.

(** ** More on the metadata block *)

(** X5. An empty latitude list stops the run in the metadata block: the
    lookups succeed, the max-depth fallback may log its warning, and
    [lat_list.min()] in the log line raises ValueError; nothing else is
    logged. *)
Theorem X5_empty_latitude_list (args : Args F) (meta : gmap string (jvalue F))
    lon n m :
  meta !! "lat_list" = Some (JList []) →
  getitem meta "lon_list" ≫= np_array = mret lon →
  getitem meta "nx" ≫= py_int = mret n →
  getitem meta "ny" ≫= py_int = mret m →
  (∀ v, meta !! "max depth" = Some v → ∃ x, py_float v = mret x) →
  ∃ t, load_metadata args meta = (t, Stop (Raised ValueError)) ∧
       (t = [] ∧ is_Some (meta !! "max depth") ∨
        t = [Log WARNING MsgNoMaxDepth] ∧ meta !! "max depth" = None).
Proof.
  intros Hlat Hlon Hn Hm Hmax. unfold load_metadata.
  assert (getitem meta "lat_list" ≫= np_array = mret (Arr1 [])) as ->.
  { unfold getitem. by rewrite Hlat. }
  rewrite bind_mret, Hlon, bind_mret, Hn, bind_mret, Hm, bind_mret.
  destruct (meta !! "max depth") as [v|] eqn:Hv.
  - destruct (Hmax v eq_refl) as [x ->]. rewrite bind_mret, bind_mret.
    exists []. split; [done|]. left. eauto.
  - exists [Log WARNING MsgNoMaxDepth]. split; [done|]. by right.
Qed.

(** X6. The invariant of the metadata block: when it succeeds it either
    found a max depth and returns the arguments untouched, or found none,
    logged the warning and changed the scale mode, and only the scale
    mode, to "datamax".  So a missing max depth always comes with mode
    "datamax". *)
Theorem X6_metadata_block_invariant (args : Args F)
    (meta : gmap string (jvalue F)) (t : list (event F)) args' md :
  load_metadata args meta = (t, Val (args', md)) →
  ((args' = args ∧ is_Some (meta_max md) ∧ is_Some (meta !! "max depth")) ∨
   (args' = set_scale_mode args "datamax" ∧ meta_max md = None ∧
    meta !! "max depth" = None ∧ Log WARNING MsgNoMaxDepth ∈ t)) ∧
  (meta_max md = None → scale_mode args' = "datamax") ∧
  data_file args' = data_file args ∧ meta_file args' = meta_file args ∧
  output_file args' = output_file args ∧ cmap args' = cmap args ∧
  alpha args' = alpha args ∧ user_max args' = user_max args ∧
  title args' = title args.
Proof.
  intros H. pose proof (load_metadata_inv _ _ _ _ _ H) as Hinv.
  split; [done|].
  destruct Hinv as [(-> & [x Hx] & _)|(-> & Hnone & _)].
  - rewrite Hx. by repeat split.
  - by repeat split.
Qed.

(** ** Failures of extraction and of the grid *)

Lemma column_cases (k : nat) (data : list (list F)) :
  (∃ col, column k data = mret col) ∨ column k data = raise IndexError.
Proof. unfold column. destruct (mapM _ data); simpl; eauto. Qed.

Lemma column_narrow (k : nat) (data : list (list F)) :
  Exists (λ row, length row ≤ k)%nat data → column k data = raise IndexError.
Proof.
  intros Hex. unfold column.
  rewrite (mapM_None_2 (λ row : list F, row !! k) data); [done|].
  eapply Exists_impl; [exact Hex|]. intros row Hrow. simpl.
  by apply lookup_ge_None_2.
Qed.

(** X9. A table in which some row has fewer than five entries makes the
    extraction raise IndexError, with nothing logged: one of the three
    column reads fails. *)
Theorem X9_narrow_table_raises (data : list (list F)) :
  Exists (λ row, length row < 5)%nat data →
  extract_depths data = ([], Stop (Raised IndexError)).
Proof.
  intros Hex. unfold extract_depths.
  destruct (column_cases 2 data) as [[c2 ->]| ->]; [rewrite bind_mret|done].
  destruct (column_cases 3 data) as [[c3 ->]| ->]; [rewrite bind_mret|done].
  rewrite (column_narrow 4 data); [done|].
  eapply Exists_impl; [exact Hex|]. simpl. intros row Hrow. lia.
Qed.

(** X10. Two ways the grid block raises after a passed size check: a
    negative [nx] or [ny] (the product can still equal the number of
    depths) makes the reshape raise ValueError; a latitude entry given as
    a single number instead of a list gives an array that cannot be
    indexed, and the flip test raises IndexError.  Nothing is logged in
    either case. *)
Theorem X10_grid_block_exceptions (md : metadata F) (depths_flat : list F) :
  Z.of_nat (length depths_flat) = nx md * ny md →
  (nx md < 0 ∨ ny md < 0 →
     build_grid md depths_flat = ([], Stop (Raised ValueError))) ∧
  (∀ x, 0 ≤ nx md → 0 ≤ ny md → lat_list md = Arr0 x →
     build_grid md depths_flat = ([], Stop (Raised IndexError))).
Proof.
  intros Hlen. split.
  - intros Hneg. unfold build_grid, np_reshape.
    rewrite bool_decide_eq_false_2 by (intros ?; lia).
    rewrite bool_decide_eq_false_2 by (intros ?; lia). done.
  - intros x Hx Hy Hlat. unfold build_grid.
    rewrite bool_decide_eq_false_2 by (intros ?; lia).
    rewrite np_reshape_ok, bind_mret by done. by rewrite Hlat.
Qed.

(** ** The flipped grid, row by row *)

Lemma cell_reverse {A} (rows : list (list A)) (i j : nat) :
  (i < length rows)%nat →
  cell (reverse rows) i j = cell rows (length rows - S i) j.
Proof. intros Hi. unfold cell. by rewrite reverse_lookup. Qed.

Lemma flipud_involutive (g : masked_array F) : flipud (flipud g) = g.
Proof. destruct g. unfold flipud. simpl. by rewrite !reverse_involutive. Qed.

(** X11. When the first latitude is not below the last, the grid handed
    on holds the input rows in reverse order: its cell [(i, j)] is depth
    [(ny-1-i)*nx + j], masked exactly when that depth equals -1.0; and
    flipping twice gives the grid back. *)
Theorem X11_flipped_grid_cells (md : metadata F) (depths_flat l : list F)
    (lat_first lat_last : F) :
  0 ≤ nx md → 0 ≤ ny md →
  Z.of_nat (length depths_flat) = nx md * ny md →
  lat_list md = Arr1 l → head l = Some lat_first → last l = Some lat_last →
  fltb lat_first lat_last = false →
  ∃ g, result (build_grid md depths_flat) = Val g ∧
    flipud g = grid_of md depths_flat ∧
    ∀ i j, (i < Z.to_nat (ny md))%nat → (j < Z.to_nat (nx md))%nat →
      let k := ((Z.to_nat (ny md) - S i) * Z.to_nat (nx md) + j)%nat in
      cell (ma_data g) i j = depths_flat !! k ∧
      cell (ma_mask g) i j = (λ x, feqb x fminus_one) <$> depths_flat !! k.
Proof.
  intros Hx Hy Hlen Hlat Hfirst Hlast Hlt.
  exists (flipud (grid_of md depths_flat)). split; [|split].
  - rewrite (build_grid_ok md depths_flat l lat_first lat_last) by done.
    by rewrite Hlt.
  - apply flipud_involutive.
  - intros i j Hi Hj k.
    assert (length (ma_data (grid_of md depths_flat)) = Z.to_nat (ny md)) as Hrows.
    { unfold grid_of. simpl. by rewrite length_reshape, length_replicate. }
    assert (cell (ma_data (flipud (grid_of md depths_flat))) i j
            = depths_flat !! k) as Hcell.
    { change (ma_data (flipud (grid_of md depths_flat)))
        with (reverse (ma_data (grid_of md depths_flat))).
      rewrite cell_reverse by (rewrite Hrows; lia).
      rewrite Hrows. unfold grid_of. simpl ma_data.
      apply reshape_replicate_cell; lia. }
    split; [done|].
    unfold grid_of in *. rewrite flipud_masked_equal in *.
    rewrite masked_equal_mask_cell. unfold masked_equal in Hcell.
    cbn [ma_data] in Hcell. by rewrite Hcell.
Qed.

(** ** The city loop, from its output *)

Lemma major_inv (pop : option Z) :
  major pop = true → ∃ p, pop = Some p ∧ 500000 ≤ p.
Proof.
  destruct pop as [p|]; simpl; [|done]. intros H.
  apply andb_true_iff in H as [_ H]. apply Z.leb_le in H. eauto.
Qed.

Lemma plotted_inv lon_min lon_max lat_min lat_max (rec : place F) :
  plotted lon_min lon_max lat_min lat_max rec = true →
  NAME rec ≠ "Oakland" ∧ (∃ p, POP_MAX rec = Some p ∧ 500000 ≤ p) ∧
  fleb lon_min (geometry_x rec) = true ∧ fleb (geometry_x rec) lon_max = true ∧
  fleb lat_min (geometry_y rec) = true ∧ fleb (geometry_y rec) lat_max = true.
Proof.
  unfold plotted, in_box. intros H.
  repeat (apply andb_true_iff in H as [H ?]).
  apply negb_true_iff, String.eqb_neq in H.
  repeat match goal with
         | H : _ && _ = true |- _ => apply andb_true_iff in H as [??]
         end.
  repeat split; try done. by apply major_inv.
Qed.

(** The events of the loop, traced back to the records. *)
Lemma elem_of_plot_cities lon_min lon_max lat_min lat_max n
    (recs : list (place F)) e :
  e ∈ trace (plot_cities lon_min lon_max lat_min lat_max n recs) →
  ∃ rec, rec ∈ recs ∧ plotted lon_min lon_max lat_min lat_max rec = true ∧
         e ∈ city_events rec.
Proof.
  rewrite plot_cities_spec. unfold trace. simpl. intros Hin.
  apply list_elem_of_In, in_concat in Hin as (evs & Hevs & Hin).
  apply list_elem_of_In in Hevs, Hin.
  apply list_elem_of_fmap in Hevs as (rec & -> & Hrec).
  exists rec. destruct (plotted lon_min lon_max lat_min lat_max rec) eqn:Hp.
  - done.
  - by apply elem_of_nil in Hin.
Qed.

(** X15. The loop draws for no record outside the filter: every event it
    emits is the marker or the label of a record of the table that is not
    named "Oakland", has a recorded population of at least 500000 and lies
    inside the box.  A record without population, with a population below
    the threshold, or outside the box on any side, draws nothing. *)
Theorem X15_city_loop_draws_only_filtered (lon_min lon_max lat_min lat_max : F)
    (n : nat) (recs : list (place F)) (rec0 : place F) :
  (∀ e, e ∈ trace (plot_cities lon_min lon_max lat_min lat_max n recs) →
     ∃ rec, rec ∈ recs ∧ e ∈ city_events rec ∧
       NAME rec ≠ "Oakland" ∧ (∃ p, POP_MAX rec = Some p ∧ 500000 ≤ p) ∧
       fleb lon_min (geometry_x rec) = true ∧
       fleb (geometry_x rec) lon_max = true ∧
       fleb lat_min (geometry_y rec) = true ∧
       fleb (geometry_y rec) lat_max = true) ∧
  (POP_MAX rec0 = None ∨ (∃ p, POP_MAX rec0 = Some p ∧ p < 500000) ∨
   fleb lon_min (geometry_x rec0) = false ∨
   fleb (geometry_x rec0) lon_max = false ∨
   fleb lat_min (geometry_y rec0) = false ∨
   fleb (geometry_y rec0) lat_max = false →
     plot_city lon_min lon_max lat_min lat_max n rec0 = ([], Val n)).
Proof.
  split.
  - intros e He. apply elem_of_plot_cities in He as (rec & Hrec & Hp & He).
    exists rec. split; [done|]. split; [done|]. by apply plotted_inv.
  - intros H. rewrite plot_city_spec.
    destruct (plotted lon_min lon_max lat_min lat_max rec0) eqn:Hp; [|done].
    apply plotted_inv in Hp as (_ & (p & Hpop & Hp) & H1 & H2 & H3 & H4).
    destruct H as [H|[(q & Hq & Hlt)|[H|[H|[H|H]]]]]; try congruence.
    rewrite Hq in Hpop. simplify_eq. lia.
Qed.

Lemma count_cities (P : event F → bool) (k : nat)
    lon_min lon_max lat_min lat_max (recs : list (place F)) :
  (∀ rec, length (filter (λ e, P e = true) (city_events rec)) = k) →
  length (filter (λ e, P e = true)
            (concat ((λ rec, if plotted lon_min lon_max lat_min lat_max rec
                             then city_events rec else []) <$> recs)))
  = (k * length (filter (λ rec, plotted lon_min lon_max lat_min lat_max rec = true)
                        recs))%nat.
Proof.
  intros Hk. induction recs as [|rec recs IH]; [simpl; lia|].
  rewrite fmap_cons. simpl concat. rewrite filter_app, length_app, IH.
  rewrite (filter_cons (λ rec, plotted lon_min lon_max lat_min lat_max rec = true)).
  destruct (plotted lon_min lon_max lat_min lat_max rec) eqn:Hp; simpl.
  - rewrite Hk. lia.
  - lia.
Qed.

(** X14. The counter of the loop counts what is drawn: the loop returns
    its starting count plus the number of markers in its trace, which is
    also the number of labels, and it emits nothing else. *)
Theorem X14_city_counter_counts_markers (lon_min lon_max lat_min lat_max : F)
    (n : nat) (recs : list (place F)) :
  ∃ t k,
    plot_cities lon_min lon_max lat_min lat_max n recs = (t, Val (n + k)%nat) ∧
    length (filter (λ e, is_marker e = true) t) = k ∧
    length (filter (λ e, is_label e = true) t) = k ∧
    length t = (2 * k)%nat.
Proof.
  rewrite plot_cities_spec. eexists _, _. split; [done|].
  split; [|split].
  - rewrite (count_cities is_marker 1); [lia|]. by intros rec.
  - rewrite (count_cities is_label 1); [lia|]. by intros rec.
  - rewrite <- (count_cities (λ _, true) 2); [|by intros rec].
    set (l := concat _). clearbody l.
    induction l as [|e l IH]; [done|].
    rewrite filter_cons. simpl. by rewrite IH.
Qed.

(** ** What a rendering call in the trace tells *)

Lemma elem_of_trace_bind {A B} (m : M F A) (f : A → M F B) e :
  e ∈ trace (m ≫= f) ↔
  e ∈ trace m ∨ ∃ (t : list (event F)) a, m = (t, Val a) ∧ e ∈ trace (f a).
Proof.
  destruct m as [t [a|s]]; unfold trace; simpl.
  - destruct (f a) as [t' r] eqn:Hf. simpl. rewrite elem_of_app. split.
    + intros [H|H]; [by left|]. right. exists t, a. by rewrite Hf.
    + intros [H|(t0 & a0 & Heq & H)]; [by left|]. right.
      simplify_eq. by rewrite Hf in H.
  - split; [by left|]. intros [H|(t0 & a0 & Heq & H)]; [done|]. simplify_eq.
Qed.

Lemma render_not_in_quiet {A} (m : M F A) e :
  quiet m → e ∈ trace m → is_render e = true → False.
Proof.
  unfold quiet. rewrite Forall_forall. intros Hq Hin He.
  specialize (Hq e Hin). congruence.
Qed.

(** A rendering call in the trace of a bind whose first part is quiet
    comes from the second part, and the first part succeeded. *)
Lemma render_in_bind {A B} (m : M F A) (f : A → M F B) e :
  quiet m → is_render e = true → e ∈ trace (m ≫= f) →
  ∃ (t : list (event F)) a, m = (t, Val a) ∧ e ∈ trace (f a).
Proof.
  intros Hq He Hin. apply elem_of_trace_bind in Hin as [Hin|Hin]; [|done].
  destruct (render_not_in_quiet m e Hq Hin He).
Qed.

Lemma or_raise_inv {A} e (o : option A) (t : list (event F)) a :
  or_raise e o = (t, Val a) → o = Some a ∧ t = [].
Proof.
  destruct o; simpl; unfold mret, M_ret, raise; intros H; by simplify_eq.
Qed.

Lemma bind_nil_val {A B} (m : M F A) (f : A → M F B) a :
  m = ([], Val a) → m ≫= f = f a.
Proof. intros ->. apply bind_mret. Qed.

(** Every rendering call of [main] comes from [draw], after all the
    blocks before it have succeeded. *)
Lemma main_reaches_draw (w : world F) argv e :
  e ∈ trace (main w argv) → is_render e = true →
  ∃ args meta (t1 : list (event F)) args' md data (t2 : list (event F))
    depths_flat (t3 : list (event F)) depths (t4 : list (event F)) vmax,
    parse_arguments argv = ([], Val args) ∧
    json_load w (meta_file args) = Some meta ∧
    load_metadata args meta = (t1, Val (args', md)) ∧
    loadtxt w (data_file args') = Some data ∧
    extract_depths data = (t2, Val depths_flat) ∧
    build_grid md depths_flat = (t3, Val depths) ∧
    resolve_scale args' md depths = (t4, Val vmax) ∧
    e ∈ trace (draw w args' md depths vmax) ∧
    main w argv =
      (t1 ++ t2 ++ t3 ++ t4 ++ trace (draw w args' md depths vmax),
       result (draw w args' md depths vmax)).
Proof.
  intros Hin He. unfold main in *.
  apply render_in_bind in Hin as (t0 & args & Hparse & Hin);
    [|apply quiet_parse_arguments|done].
  pose proof (parse_arguments_inv _ _ _ Hparse) as [-> _].
  rewrite (bind_nil_val _ _ _ Hparse). unfold run in *.
  apply render_in_bind in Hin as (? & meta & Hmeta & Hin);
    [|apply quiet_or_raise|done].
  pose proof (or_raise_inv _ _ _ _ Hmeta) as [Hmeta' ->].
  rewrite (bind_nil_val _ _ _ Hmeta).
  apply render_in_bind in Hin as (t1 & [args' md] & Hload & Hin);
    [|apply quiet_load_metadata|done].
  rewrite (bind_val _ _ _ _ Hload).
  apply render_in_bind in Hin as (? & data & Hdata & Hin);
    [|apply quiet_or_raise|done].
  pose proof (or_raise_inv _ _ _ _ Hdata) as [Hdata' ->].
  rewrite (bind_nil_val _ _ _ Hdata).
  apply render_in_bind in Hin as (t2 & depths_flat & Hflat & Hin);
    [|apply quiet_extract_depths|done].
  rewrite (bind_val _ _ _ _ Hflat).
  apply render_in_bind in Hin as (t3 & depths & Hgrid & Hin);
    [|apply quiet_build_grid|done].
  rewrite (bind_val _ _ _ _ Hgrid).
  apply render_in_bind in Hin as (t4 & vmax & Hscale & Hin);
    [|apply quiet_resolve_scale|done].
  rewrite (bind_val _ _ _ _ Hscale).
  exists args, meta, t1, args', md, data, t2, depths_flat, t3, depths, t4, vmax.
  unfold trace, result. simpl. by repeat split.
Qed.

(** [draw] either finds the four bounds and runs to its end, or stops at
    the first bound that does not exist, with figure and axes created. *)
Lemma draw_cases (w : world F) (args : Args F) (md : metadata F) depths vmax :
  (∃ lon_min lon_max lat_min lat_max,
     np_min (lon_list md) = mret lon_min ∧ np_max (lon_list md) = mret lon_max ∧
     np_min (lat_list md) = mret lat_min ∧ np_max (lat_list md) = mret lat_max ∧
     draw w args md depths vmax =
       (draw_events w args depths vmax lon_min lon_max lat_min lat_max, Val ())) ∨
  draw w args md depths vmax =
    ([Render Figure; Render MercatorAxes], Stop (Raised ValueError)).
Proof.
  destruct (np_reduce_cases fminimum (lon_list md)) as [[a Ha]|Ha];
  destruct (np_reduce_cases fmaximum (lon_list md)) as [[b Hb]|Hb];
  destruct (np_reduce_cases fminimum (lat_list md)) as [[c Hc]|Hc];
  destruct (np_reduce_cases fmaximum (lat_list md)) as [[d Hd]|Hd];
    try (left; exists a, b, c, d; repeat split; try done; by apply draw_ok);
    right; unfold draw, np_min, np_max;
    rewrite ?Ha, ?Hb, ?Hc, ?Hd; done.
Qed.

Lemma elem_of_draw_events (w : world F) args depths vmax
    lon_min lon_max lat_min lat_max e :
  e ∈ draw_events w args depths vmax lon_min lon_max lat_min lat_max →
  is_marker e = true ∨ is_label e = true ∨
  e ∈ [Render Figure; Render MercatorAxes;
       Render (SetExtent lon_min lon_max lat_min lat_max); Log INFO MsgExtent;
       Render (AddFeature LAND); Render (AddFeature OCEAN);
       Render (AddFeature COASTLINE); Render (AddFeature BORDERS);
       Render (AddFeature STATE_LINES);
       Render (GetCmap (cmap args));
       Render (Imshow depths lon_min lon_max lat_min lat_max
                      (cmap args) (alpha args) vmin vmax);
       Log INFO MsgRendered; Render PopulatedPlaces;
       Log INFO (MsgCities
         (length (filter (λ rec, plotted lon_min lon_max lat_min lat_max rec = true)
                         (records w))));
       Render Colorbar; Render (Title (title args)); Render TightLayout] ∨
  (roads_raise w = true ∧ e = Log WARNING MsgRoadsFailed) ∨
  (roads_raise w = false ∧ e ∈ [Render (AddFeature ROADS); Log INFO MsgRoads]) ∨
  (savefig_raises w = true ∧ e = Log ERROR MsgSaveError) ∨
  (savefig_raises w = false ∧
   e ∈ [Render (Savefig (output_file args));
        Log INFO (MsgSaved (output_file args))]).
Proof.
  unfold draw_events. rewrite !elem_of_app.
  intros [H|[H|[H|[H|[H|H]]]]].
  - do 2 right. left.
    repeat (apply elem_of_cons in H as [->|H]; [solve [repeat constructor]|]).
    by apply elem_of_nil in H.
  - destruct (roads_raise w).
    + do 3 right. left. split; [done|]. by apply list_elem_of_singleton in H.
    + do 4 right. left. by split.
  - do 2 right. left.
    repeat (apply elem_of_cons in H as [->|H]; [solve [repeat constructor]|]).
    by apply elem_of_nil in H.
  - apply elem_of_plot_cities in H as (rec & _ & _ & H).
    unfold city_events in H.
    apply elem_of_cons in H as [->|H]; [by left|].
    apply list_elem_of_singleton in H as ->. right. by left.
  - do 2 right. left.
    repeat (apply elem_of_cons in H as [->|H]; [solve [repeat constructor]|]).
    by apply elem_of_nil in H.
  - destruct (savefig_raises w).
    + do 5 right. left. split; [done|]. by apply list_elem_of_singleton in H.
    + do 6 right. by split.
Qed.

(** X13. No partial output: if a run of [main] saves a file at all, then
    every stage before succeeded, the file is the one named by
    [--output_file], the image call was made, and the run ended
    normally. *)
Theorem X13_saved_file_means_complete_run (w : world F)
    (argv : list (flag * string)) (path : string) :
  Render (Savefig path) ∈ trace (main w argv) →
  result (main w argv) = Val () ∧
  savefig_raises w = false ∧
  (∃ args, parse_arguments argv = ([], Val args) ∧ path = output_file args) ∧
  (∃ e, e ∈ trace (main w argv) ∧ is_imshow e = true).
Proof.
  intros Hin.
  destruct (main_reaches_draw w argv _ Hin eq_refl)
    as (args & meta & t1 & args' & md & data & t2 & flat & t3 & depths & t4
        & vmax & Hparse & Hmeta & Hload & Hdata & Hflat & Hgrid & Hscale
        & Hdraw & Hmain).
  assert (output_file args' = output_file args) as Hout.
  { by apply load_metadata_inv in Hload as [(-> & _)|(-> & _)]. }
  destruct (draw_cases w args' md depths vmax)
    as [(a & b & c & d & Ha & Hb & Hc & Hd & Heq)|Heq];
    rewrite Heq in Hdraw, Hmain; unfold trace, result in Hdraw, Hmain;
    simpl in Hdraw, Hmain.
  - apply elem_of_draw_events in Hdraw
      as [H|[H|[H|[[_ H]|[[_ H]|[[_ H]|[Hsave H]]]]]]]; try done.
    + repeat (apply elem_of_cons in H as [H|H]; [done|]).
      by apply elem_of_nil in H.
    + repeat (apply elem_of_cons in H as [H|H]; [done|]).
      by apply elem_of_nil in H.
    + apply elem_of_cons in H as [H|H].
      * injection H as ->. rewrite Hmain. unfold result, trace. simpl.
        split; [done|]. split; [done|]. split; [by exists args|].
        exists (Render (Imshow depths a b c d (cmap args') (alpha args') vmin vmax)).
        split; [|done]. rewrite !elem_of_app. do 4 right.
        pose proof (draw_imshow w args' md depths vmax a b c d Ha Hb Hc Hd) as Him.
        by rewrite Heq in Him.
      * apply list_elem_of_singleton in H. done.
  - repeat (apply elem_of_cons in Hdraw as [Hdraw|Hdraw]; [done|]).
    by apply elem_of_nil in Hdraw.
Qed.

(** ** The two tolerated failures, and the one file *)


Lemma filter_none {A} (P : A → Prop) `{∀ x, Decision (P x)} (l : list A) :
  Forall (λ x, ¬ P x) l → filter P l = [].
Proof.
  induction 1 as [|x l Hx Hl IH]; [done|].
  rewrite filter_cons. by rewrite decide_False.
Qed.

Lemma quiet_no_savefig (t : list (event F)) :
  Forall (λ e, is_render e = false) t →
  filter (λ e, is_savefig e = true) t = [].
Proof.
  intros Hq. apply filter_none. eapply Forall_impl; [exact Hq|].
  intros [| [] |]; simpl; congruence.
Qed.

Lemma draw_events_savefig (w : world F) args depths vmax
    lon_min lon_max lat_min lat_max :
  filter (λ e, is_savefig e = true)
         (draw_events w args depths vmax lon_min lon_max lat_min lat_max)
  = if savefig_raises w then []
    else [Render (Savefig (output_file args))].
Proof.
  unfold draw_events. rewrite !filter_app.
  rewrite (filter_none _ (trace (plot_cities _ _ _ _ _ _))); last first.
  { apply Forall_forall. intros e He.
    apply elem_of_plot_cities in He as (rec & _ & _ & He).
    unfold city_events in He.
    apply elem_of_cons in He as [->|He]; [done|].
    by apply list_elem_of_singleton in He as ->. }
  by destruct (roads_raise w), (savefig_raises w).
Qed.

(** A run of [main] that ends normally went through every block. *)
Lemma main_val_inv (w : world F) argv (t : list (event F)) :
  main w argv = (t, Val ()) →
  ∃ args' md depths vmax (t0 t5 : list (event F)),
    Forall (λ e, is_render e = false) t0 ∧
    draw w args' md depths vmax = (t5, Val ()) ∧ t = t0 ++ t5.
Proof.
  unfold main, run. intros H.
  apply bind_val_inv in H as (t1 & args & ? & Hparse & H & ->).
  apply bind_val_inv in H as (t2 & meta & ? & Hmeta & H & ->).
  apply bind_val_inv in H as (t3 & [args' md] & ? & Hload & H & ->).
  apply bind_val_inv in H as (t4 & data & ? & Hdata & H & ->).
  apply bind_val_inv in H as (t5 & flat & ? & Hflat & H & ->).
  apply bind_val_inv in H as (t6 & depths & ? & Hgrid & H & ->).
  apply bind_val_inv in H as (t7 & vmax & t8 & Hscale & H & ->).
  exists args', md, depths, vmax, (t1 ++ t2 ++ t3 ++ t4 ++ t5 ++ t6 ++ t7), t8.
  split; [|split; [done|by rewrite <- !app_assoc]].
  pose proof (quiet_parse_arguments argv) as Q1.
  pose proof (quiet_or_raise (F:=F) IOError (json_load w (meta_file args))) as Q2.
  pose proof (quiet_load_metadata args meta) as Q3.
  pose proof (quiet_or_raise (F:=F) IOError (loadtxt w (data_file args'))) as Q4.
  pose proof (quiet_extract_depths data) as Q5.
  pose proof (quiet_build_grid md flat) as Q6.
  pose proof (quiet_resolve_scale args' md depths) as Q7.
  unfold quiet in *.
  rewrite Hparse in Q1. rewrite Hmeta in Q2. rewrite Hload in Q3.
  rewrite Hdata in Q4. rewrite Hflat in Q5. rewrite Hgrid in Q6.
  rewrite Hscale in Q7. by repeat apply Forall_app_2.
Qed.

(** X17. One run, at most one file: the trace of [main] never holds more
    than one [savefig]; and a run that ends normally in an environment
    where [savefig] does not raise holds exactly one. *)
Theorem X17_at_most_one_file (w : world F) (argv : list (flag * string)) :
  (length (filter (λ e, is_savefig e = true) (trace (main w argv))) ≤ 1)%nat ∧
  (result (main w argv) = Val () → savefig_raises w = false →
   length (filter (λ e, is_savefig e = true) (trace (main w argv))) = 1%nat).
Proof.
  split.
  - destruct (filter (λ e, is_savefig e = true) (trace (main w argv)))
      as [|e l] eqn:Hf; [simpl; lia|].
    assert (e ∈ filter (λ e, is_savefig e = true) (trace (main w argv))) as Hin
      by (rewrite Hf; by left).
    apply list_elem_of_filter in Hin as [He Hin].
    assert (is_render e = true) as Hr by (by destruct e as [| [] |]).
    destruct (main_reaches_draw w argv e Hin Hr)
      as (args & meta & t1 & args' & md & data & t2 & flat & t3 & depths & t4
          & vmax & Hparse & Hmeta & Hload & Hdata & Hflat & Hgrid & Hscale
          & Hdraw & Hmain).
    rewrite <- Hf, Hmain. unfold trace at 1. simpl fst.
    pose proof (quiet_load_metadata args meta) as Q1.
    pose proof (quiet_extract_depths data) as Q2.
    pose proof (quiet_build_grid md flat) as Q3.
    pose proof (quiet_resolve_scale args' md depths) as Q4.
    unfold quiet in *. rewrite Hload in Q1. rewrite Hflat in Q2.
    rewrite Hgrid in Q3. rewrite Hscale in Q4.
    rewrite !filter_app, !quiet_no_savefig by done. simpl.
    destruct (draw_cases w args' md depths vmax)
      as [(a & b & c & d & _ & _ & _ & _ & ->)| ->]; unfold trace; simpl fst.
    + rewrite draw_events_savefig. destruct (savefig_raises w); simpl; lia.
    + simpl. lia.
  - intros Hres Hsave.
    destruct (main w argv) as [t r] eqn:Hmain. unfold result in Hres.
    simpl in Hres. subst r.
    apply main_val_inv in Hmain as (args' & md & depths & vmax & t0 & t5
                                    & Hq & Hdraw & ->).
    unfold trace. simpl fst. rewrite filter_app, quiet_no_savefig by done.
    destruct (draw_cases w args' md depths vmax)
      as [(a & b & c & d & _ & _ & _ & _ & Heq)|Heq];
      rewrite Heq in Hdraw; simplify_eq.
    rewrite draw_events_savefig, Hsave. done.
Qed.

(** ** The colour scale does not see the flip *)

Lemma elem_of_concat_reverse {A} (rows : list (list A)) (x : A) :
  x ∈ concat (reverse rows) ↔ x ∈ concat rows.
Proof.
  rewrite !list_elem_of_In, !in_concat.
  split; intros (row & Hrow & Hx); exists row; (split; [|done]);
    rewrite <- list_elem_of_In in *.
  - by apply elem_of_reverse.
  - by apply elem_of_reverse.
Qed.

Lemma not_nil_elem {A} (l : list A) : l ≠ [] ↔ ∃ x, x ∈ l.
Proof.
  destruct l as [|x l]; split; try done.
  - intros [x Hx]. by apply elem_of_nil in Hx.
  - intros _. exists x. by left.
Qed.

Lemma mask_all_flipud (rows : list (list F)) (v : F) :
  mask_all (flipud (masked_equal rows v)) = mask_all (masked_equal rows v).
Proof.
  rewrite flipud_masked_equal.
  assert (∀ rs rs' : list (list F),
            (∀ x, x ∈ concat rs ↔ x ∈ concat rs') →
            mask_all (masked_equal rs v) = true →
            mask_all (masked_equal rs' v) = true) as Hmono.
  { intros rs rs' Hmem H. apply mask_all_masked_equal in H as [Hne Hall].
    apply mask_all_masked_equal. split.
    - apply not_nil_elem in Hne as [x Hx]. apply not_nil_elem.
      exists x. by apply Hmem.
    - rewrite Forall_forall in *. intros x Hx. by apply Hall, Hmem. }
  destruct (mask_all (masked_equal (reverse rows) v)) eqn:E1,
           (mask_all (masked_equal rows v)) eqn:E2; try done.
  - rewrite (Hmono (reverse rows) rows) in E2; [done| |done].
    apply elem_of_concat_reverse.
  - rewrite (Hmono rows (reverse rows)) in E1; [done| |done].
    intros x. symmetry. apply elem_of_concat_reverse.
Qed.

Section FlipScale.
Context `{!FloatLaws F}.

(** X12. The colour scale is the same for a grid and for its flip.  In
    modes other than "datamax" the scale block does not look at the grid
    at all; in "datamax" mode the all-masked test agrees on both, and
    when some cell is unmasked (the unmasked cells being numbers) the two
    maxima are each at least the other. *)
Theorem X12_scale_ignores_flip (args : Args F) (md : metadata F)
    (rows : list (list F)) :
  let g := masked_equal rows fminus_one in
  (scale_mode args ≠ "datamax" →
     ∀ g', resolve_scale args md g' = resolve_scale args md g) ∧
  mask_all (flipud g) = mask_all g ∧
  (scale_mode args = "datamax" →
     Exists (λ x, feqb x fminus_one = false) (concat rows) →
     Forall (λ x, feqb x fminus_one = false → fleb x x = true) (concat rows) →
     ∃ v v',
       resolve_scale args md g = ([Log INFO (MsgScale 0 v)], Val v) ∧
       resolve_scale args md (flipud g) = ([Log INFO (MsgScale 0 v')], Val v') ∧
       fleb v v' = true ∧ fleb v' v = true).
Proof.
  intros g. split; [|split].
  - intros Hmode g'. unfold resolve_scale.
    destruct (String.eqb_spec (scale_mode args) "datamax") as [E|_]; [done|].
    done.
  - apply mask_all_flipud.
  - intros Hmode Hex Hnum.
    assert (Exists (λ x, feqb x fminus_one = false) (concat (reverse rows)))
      as Hex'.
    { apply Exists_exists in Hex as (x & Hx & Hxv). apply Exists_exists.
      exists x. split; [by apply elem_of_concat_reverse|done]. }
    assert (Forall (λ x, feqb x fminus_one = false → fleb x x = true)
                   (concat (reverse rows))) as Hnum'.
    { rewrite Forall_forall in *. intros x Hx.
      by apply Hnum, elem_of_concat_reverse. }
    destruct (ma_max_greatest rows fminus_one Hex Hnum)
      as (v & Hv & Hin & Hvm & Hub).
    destruct (ma_max_greatest (reverse rows) fminus_one Hex' Hnum')
      as (v' & Hv' & Hin' & Hvm' & Hub').
    subst g.
    assert (mask_all (masked_equal rows fminus_one) = false) as Hmask.
    { apply not_true_is_false. intros Hall.
      apply mask_all_masked_equal in Hall as [_ Hall].
      rewrite Forall_forall in Hall. specialize (Hall v Hin). congruence. }
    exists v, v'. rewrite !resolve_scale_datamax by done.
    rewrite mask_all_flipud, Hmask.
    rewrite flipud_masked_equal, Hv, Hv'.
    repeat split; try done.
    + apply Hub'; [by apply elem_of_concat_reverse|done].
    + apply Hub; [by apply elem_of_concat_reverse|done].
Qed.

End FlipScale.

(** ** The columns the extraction reads *)

Lemma column_ext (k : nat) (data data' : list (list F)) :
  Forall2 (λ r r' : list F, r !! k = r' !! k) data data' →
  column k data = column k data'.
Proof.
  intros H. unfold column.
  by rewrite (Forall2_mapM_ext (λ row : list F, row !! k)
                (λ row : list F, row !! k) data data').
Qed.

(** X18. The extraction reads columns 2, 3 and 4 and nothing else: two
    tables with the same number of rows that agree, row by row, on these
    three columns give the same result, whatever their columns 0 and 1
    hold and however many further columns they have. *)
Theorem X18_only_three_columns_read (data data' : list (list F)) :
  Forall2 (λ r r' : list F,
             r !! 2%nat = r' !! 2%nat ∧ r !! 3%nat = r' !! 3%nat ∧
             r !! 4%nat = r' !! 4%nat) data data' →
  extract_depths data = extract_depths data'.
Proof.
  intros H. unfold extract_depths.
  rewrite (column_ext 2 data data'), (column_ext 3 data data'),
    (column_ext 4 data data'); [done|..];
    (eapply Forall2_impl; [exact H|]); simpl; tauto.
Qed.

End Further.

(** * The further properties on the examples *)

Lemma X2_last_occurrence_wins_witness :
  reading (F:=Q) cmap_flag "magma"
    = Some (args_field cmap_flag
              (MkArgs "z25.txt" "z25.json" "z25.png" "magma" 1%Q "metadata"
                      None "Basin depth")).
Proof.
  apply (X2_last_occurrence_wins (ex_argv ++ [(cmap_flag, "plasma")])
           [(title_flag, "Basin depth")] cmap_flag "magma").
  - reflexivity.
  - compute_done.
Defined.

Lemma X3_omitted_options_keep_defaults_witness :
  scale_mode (MkArgs "z25.txt" "z25.json" "z25.png" "magma" 1%Q "metadata"
                     None "Z2.5 depth data for California CVMs.")
    = "metadata".
Proof.
  destruct (X3_omitted_options_keep_defaults
              (ex_argv ++ [(cmap_flag, "magma")]) scale_mode_flag
              (MkArgs "z25.txt" "z25.json" "z25.png" "magma" 1%Q "metadata"
                      None "Z2.5 depth data for California CVMs."))
    as [_ H]; [reflexivity | compute_done | exact H].
Defined.

Lemma X4_missing_mandatory_key_witness :
  ∃ e, run (ex_world (delete "nx" ex_meta) ex_data) (ex_args "metadata" None)
       = ([], Stop (Raised e)).
Proof.
  destruct (X4_missing_mandatory_key (ex_world (delete "nx" ex_meta) ex_data)
              (ex_args "metadata" None) (delete "nx" ex_meta) "nx")
    as [H _]; [reflexivity | compute_done | by vm_compute | exact H].
Defined.

Lemma X5_empty_latitude_list_witness :
  ∃ t, load_metadata (ex_args "metadata" None) (ex_meta_with [])
       = (t, Stop (Raised ValueError)).
Proof.
  destruct (X5_empty_latitude_list (ex_args "metadata" None) (ex_meta_with [])
              (Arr1 [inject_Z (-120); inject_Z (-118)]) 2 2)
    as (t & H & _); [by vm_compute..| |by exists t].
  intros v Hv. vm_compute in Hv. injection Hv as <-.
  by exists (inject_Z 5000).
Defined.

Lemma X6_metadata_block_invariant_witness :
  scale_mode (set_scale_mode (ex_args "user" None) "datamax") = "datamax" ∧
  user_max (set_scale_mode (ex_args "user" None) "datamax") = None.
Proof.
  destruct (X6_metadata_block_invariant (ex_args "user" None)
              (delete "max depth" ex_meta)
              [Log WARNING MsgNoMaxDepth; Log INFO (MsgMetadata 2 2 34%Q 35%Q)]
              (set_scale_mode (ex_args "user" None) "datamax")
              (Metadata (Arr1 [34%Q; 35%Q])
                        (Arr1 [inject_Z (-120); inject_Z (-118)]) 2 2 None))
    as (_ & Hmode & _ & _ & _ & _ & _ & Hmax & _); [by vm_compute|].
  split; [by apply Hmode|exact Hmax].
Defined.

Lemma X9_narrow_table_raises_witness :
  extract_depths [[0; 0; 1; 5; 9]; [0; 0; 0; 9]]%Q
    = ([], Stop (Raised IndexError)).
Proof.
  apply X9_narrow_table_raises. apply Exists_cons_tl, Exists_cons_hd.
  simpl. lia.
Defined.

Lemma X10_grid_block_exceptions_witness :
  build_grid (Metadata (Arr1 [34%Q; 35%Q]) (Arr1 [(-120)%Q; (-118)%Q])
                       (-2) (-2) None) ex_flat
    = ([], Stop (Raised ValueError)) ∧
  build_grid (Metadata (Arr0 34%Q) (Arr1 [(-120)%Q; (-118)%Q]) 2 2 None) ex_flat
    = ([], Stop (Raised IndexError)).
Proof.
  split.
  - apply (X10_grid_block_exceptions
             (Metadata (Arr1 [34%Q; 35%Q]) (Arr1 [(-120)%Q; (-118)%Q])
                       (-2) (-2) None) ex_flat); [reflexivity|].
    left. simpl. lia.
  - destruct (X10_grid_block_exceptions
                (Metadata (Arr0 34%Q) (Arr1 [(-120)%Q; (-118)%Q]) 2 2 None)
                ex_flat) as [_ H]; [reflexivity|].
    apply (H 34%Q); [simpl; lia | simpl; lia | reflexivity].
Defined.

Lemma X11_flipped_grid_cells_witness :
  ∃ g, result (build_grid (ex_md [35%Q; 34%Q]) ex_flat) = Val g ∧
       cell (ma_data g) 0 0 = Some 3%Q ∧ cell (ma_data g) 1 1 = Some 7%Q.
Proof.
  destruct (X11_flipped_grid_cells (ex_md [35%Q; 34%Q]) ex_flat
              [35%Q; 34%Q] 35%Q 34%Q)
    as (g & Hrun & _ & Hcell);
    [simpl; lia | simpl; lia | reflexivity..|].
  exists g. split; [exact Hrun|]. split.
  - destruct (Hcell 0%nat 0%nat) as [-> _]; [simpl; lia..|]. reflexivity.
  - destruct (Hcell 1%nat 1%nat) as [-> _]; [simpl; lia..|]. reflexivity.
Defined.

Lemma X12_scale_ignores_flip_witness :
  mask_all (flipud (masked_equal [[5; 7]; [3; -1]]%Q (-1)%Q))
    = mask_all (masked_equal [[5; 7]; [3; -1]]%Q (-1)%Q) ∧
  ∃ v v',
    resolve_scale (ex_args "datamax" None) (ex_md [35%Q; 34%Q])
        (masked_equal [[5; 7]; [3; -1]]%Q (-1)%Q)
      = ([Log INFO (MsgScale 0 v)], Val v) ∧
    resolve_scale (ex_args "datamax" None) (ex_md [35%Q; 34%Q])
        (flipud (masked_equal [[5; 7]; [3; -1]]%Q (-1)%Q))
      = ([Log INFO (MsgScale 0 v')], Val v') ∧
    fleb v v' = true ∧ fleb v' v = true.
Proof.
  pose proof (X12_scale_ignores_flip (ex_args "datamax" None)
                (ex_md [35%Q; 34%Q]) [[5; 7]; [3; -1]]%Q) as H.
  cbv zeta in H. destruct H as (_ & Hmask & Hmax).
  split; [exact Hmask|].
  apply Hmax; [done | by constructor | by repeat constructor].
Defined.

Lemma X13_saved_file_means_complete_run_witness :
  result (main (ex_world ex_meta ex_data) ex_argv) = Val () ∧
  savefig_raises (ex_world ex_meta ex_data) = false.
Proof.
  destruct (X13_saved_file_means_complete_run (ex_world ex_meta ex_data)
              ex_argv "z25.png") as (Hres & Hsave & _).
  - apply list_elem_of_In. vm_compute.
    repeat (first [left; reflexivity | right]).
  - split; [exact Hres|exact Hsave].
Defined.


Lemma X18_only_three_columns_read_witness :
  extract_depths [[0; 0; 1; 5; 9]; [0; 0; 0; 9; 7]]%Q
    = extract_depths [[-119; 34; 1; 5; 9; 2500]; [-118; 34; 0; 9; 7; 1800]]%Q.
Proof.
  apply X18_only_three_columns_read. by repeat constructor.
Defined.
